(** * Verification of the InputField and DataTable components

    The two React components of the repository are embedded as functions on
    their props and their local state:

    - [DataTable] (src/components/DataTable.tsx): the sort state machine
      [handleSort], the memoised view [sortedData], the selection handlers
      [handleSelectRow] and [handleSelectAll], and the choice of the table
      body;
    - [InputField]: the attributes of the rendered input element and the
      message shown below it.

    An event handler is a function from the state of the component to its
    next state, paired with the list of the payloads it passes to the host's
    callback.  A second model, [DataTableHeap], keeps the arrays in a store,
    so that aliasing and the in-place [Array.prototype.sort] are visible.

    Parts I and II hold the embedding and the properties of the handlers
    and of the pure views; parts III and IV do the same for what the
    components render, the events they offer and the demonstration page. *)

From Stdlib Require Import ZArith Lia.
From stdpp Require Import base decidable option list strings gmap sorting.

Local Open Scope string_scope.
Local Open Scope list_scope.

(** * Part I: the embedding *)

(** ** JavaScript notions shared by the two components *)

Module JS.

(** Truthiness of a value of type [string | null] or [string | undefined]:
    [null], [undefined] and the empty string are falsy. *)
Definition truthy (o : option string) : bool :=
  match o with
  | Some s => negb (String.eqb s "")
  | None => false
  end.

(** Values of the properties of a record.  Strict equality [a === b] holds
    when [a] and [b] are the same value and that value is not NaN, the one
    value that is not strictly equal to itself ([NaN === NaN] is false,
    [undefined === undefined] is true); objects are the same value when they
    are the same reference, and [+0] and [-0] count as one number. *)
Class JsValue (Val : Type) := {
  JsValue_eq_dec :: EqDecision Val;
  isNaN : Val → bool
}.

Definition strict_eq {Val} `{JsValue Val} (a b : Val) : bool :=
  bool_decide (a = b) && negb (isNaN a).

(** [Array.prototype.sort(cmp)].  For a consistent comparator ECMAScript
    (since ES2019) fixes the result: the sort is stable, and the sorted
    arrangement that keeps tied elements in their order is unique
    ([stable_sort_unique] below); [Array_sort] computes it by insertion, where
    [x] moves past [y] exactly when [cmp x y > 0].  For a comparator that is
    not consistent the order that an engine produces is implementation-defined
    and [Array_sort] does not tell it: only that the result is a permutation
    carries over.  The properties of an order below are therefore stated for
    consistent comparators ([DataTable.StrictWeakOrder]). *)
Section Sort.
Context {A : Type} (cmp : A → A → Z).

Fixpoint sort_insert (x : A) (l : list A) : list A :=
  match l with
  | [] => [x]
  | y :: l' => if (0 <? cmp x y)%Z then y :: sort_insert x l' else x :: l
  end.

Definition Array_sort (l : list A) : list A := foldr sort_insert [] l.

(** [x] is not moved past [y]. *)
Definition keeps (x y : A) : Prop := (cmp x y <= 0)%Z.

(** [x] and [y] are tied: neither is moved past the other. *)
Definition tiedWith (x y : A) : Prop := keeps x y ∧ keeps y x.

#[global] Instance keeps_dec x y : Decision (keeps x y).
Proof. unfold keeps. apply _. Defined.

#[global] Instance tiedWith_dec x y : Decision (tiedWith x y).
Proof. unfold tiedWith. apply _. Defined.

End Sort.

End JS.

(** ** The table: props, state and pure view *)

Module DataTable.

(** [type SortOrder = 'asc' | 'desc' | null]; [null] is [None]. *)
Inductive SortOrder := asc | desc.

#[global] Instance SortOrder_eq_dec : EqDecision SortOrder.
Proof. solve_decision. Defined.

(** [interface Column<T>]; an absent [sortable] is falsy.  The optional
    [render] only affects the content of a cell. *)
Record Column := {
  key : string;
  title : string;
  dataIndex : string;
  sortable : bool
}.

(** [interface DataTableProps<T>], over the representation [Arr] of an array
    of records: [list T] in the pure model, a reference in the store model.
    [onRowSelect] records whether the host supplied the callback; what the
    callback receives is in the trace of the handlers. *)
Record Props (Arr : Type) := {
  data : Arr;
  columns : list Column;
  loading : bool;
  selectable : bool;
  onRowSelect : bool;
  rowKey : string
}.
Arguments Build_Props {Arr}.
Arguments data {Arr}.
Arguments columns {Arr}.
Arguments loading {Arr}.
Arguments selectable {Arr}.
Arguments onRowSelect {Arr}.
Arguments rowKey {Arr}.

(** The three [useState] cells of the component. *)
Record TableState (Arr : Type) := {
  sortKey : option string;
  sortOrder : option SortOrder;
  selectedRows : Arr
}.
Arguments Build_TableState {Arr}.
Arguments sortKey {Arr}.
Arguments sortOrder {Arr}.
Arguments selectedRows {Arr}.

(** The body of the table is one of three components. *)
Inductive Body := LoadingState | TableBody | EmptyState.

(** The chevron of a sortable header. *)
Inductive Chevron := ChevronUp | ChevronDown | ChevronDownMuted.

Definition flip (o : SortOrder) : SortOrder :=
  match o with asc => desc | desc => asc end.

Section Sorting.
Context {Arr : Type}.

(** [handleSort]: the updater of [setSortOrder] maps ['asc'] to ['desc'] and
    everything else to ['asc']. *)
Definition handleSort (k : string) (st : TableState Arr) : TableState Arr :=
  if decide (sortKey st = Some k) then
    {| sortKey := sortKey st;
       sortOrder := Some (if decide (sortOrder st = Some asc) then desc else asc);
       selectedRows := selectedRows st |}
  else
    {| sortKey := Some k; sortOrder := Some asc;
       selectedRows := selectedRows st |}.

(** A header carries the button that calls [handleSort] only when its column
    is sortable. *)
Definition clickHeader (col : Column) (st : TableState Arr) : TableState Arr :=
  if sortable col then handleSort (dataIndex col) st else st.

Definition clickHeaders (cols : list Column) (st : TableState Arr) : TableState Arr :=
  foldl (λ s col, clickHeader col s) st cols.

Definition headerChevron (col : Column) (st : TableState Arr) : Chevron :=
  if decide (sortKey st = Some (dataIndex col)) then
    if decide (sortOrder st = Some asc) then ChevronUp else ChevronDown
  else ChevronDownMuted.

(** The sort state is "none" when no column or no direction is set. *)
Definition unsorted (st : TableState Arr) : Prop :=
  sortKey st = None ∨ sortOrder st = None.

End Sorting.

Section View.
Context {T Val : Type} `{ValEq : JS.JsValue Val}.
(** [get r k] is the property read [r[k]], [js_lt a b] is [a < b].
    [a > b] is evaluated as [b < a]. *)
Variable get : T → string → Val.
Variable js_lt : Val → Val → bool.

Definition initial : TableState (list T) :=
  {| sortKey := None; sortOrder := None; selectedRows := [] |}.

Definition js_gt (a b : Val) : bool := js_lt b a.

(** The comparator passed to [sort]. *)
Definition compareRows (k : string) (o : SortOrder) (a b : T) : Z :=
  let valA := get a k in
  let valB := get b k in
  if js_lt valA valB then (if decide (o = asc) then -1 else 1)%Z
  else if js_gt valA valB then (if decide (o = asc) then 1 else -1)%Z
  else 0%Z.

(** [sortedData]: [if (!sortKey || !sortOrder) return data], otherwise a
    sorted copy.  Both directions are truthy strings; a key is falsy when it
    is [null] or the empty string. *)
Definition sortedData (p : Props (list T)) (st : TableState (list T)) : list T :=
  match sortKey st, sortOrder st with
  | Some k, Some o =>
      if negb (JS.truthy (Some k)) then data p
      else JS.Array_sort (compareRows k o) (data p)
  | _, _ => data p
  end.

(** [r[rowKey] === row[rowKey]].  A row whose key is NaN has the key of no
    row, not even its own. *)
Definition sameKey (rk : string) (row r : T) : Prop :=
  JS.strict_eq (get r rk) (get row rk) = true.

#[global] Instance sameKey_dec rk row r : Decision (sameKey rk row r).
Proof. unfold sameKey. apply _. Defined.

(** The selection computed by the updater of [handleSelectRow]. *)
Definition toggleRow (rk : string) (row : T) (prev : list T) : list T :=
  let isSelected := bool_decide (Exists (sameKey rk row) prev) in
  if isSelected then filter (λ r, ¬ sameKey rk row r) prev else prev ++ [row].

(** The selection computed by the updater of [handleSelectAll]. *)
Definition toggleAll (d : list T) (prev : list T) : list T :=
  if bool_decide (length prev = length d) then [] else d.

(** [if (onRowSelect) onRowSelect(newSelection)] *)
Definition notify {Arr} (p : Props Arr) (newSelection : Arr) : list Arr :=
  if onRowSelect p then [newSelection] else [].

Definition handleSelectRow (p : Props (list T)) (row : T) (st : TableState (list T))
  : TableState (list T) * list (list T) :=
  let newSelection := toggleRow (rowKey p) row (selectedRows st) in
  ({| sortKey := sortKey st; sortOrder := sortOrder st;
      selectedRows := newSelection |},
   notify p newSelection).

Definition handleSelectAll (p : Props (list T)) (st : TableState (list T))
  : TableState (list T) * list (list T) :=
  let newSelection := toggleAll (data p) (selectedRows st) in
  ({| sortKey := sortKey st; sortOrder := sortOrder st;
      selectedRows := newSelection |},
   notify p newSelection).

(** [n] activations of the select-all control, with the callbacks in order. *)
Fixpoint selectAllTimes (n : nat) (p : Props (list T)) (st : TableState (list T))
  : TableState (list T) * list (list T) :=
  match n with
  | O => (st, [])
  | S n' =>
      let '(st1, c1) := handleSelectAll p st in
      let '(st2, c2) := selectAllTimes n' p st1 in
      (st2, c1 ++ c2)
  end.

Definition isAllSelected (p : Props (list T)) (st : TableState (list T)) : bool :=
  bool_decide (0 < length (data p))
  && bool_decide (length (selectedRows st) = length (data p)).

Definition isIndeterminate (p : Props (list T)) (st : TableState (list T)) : bool :=
  bool_decide (0 < length (selectedRows st))
  && bool_decide (length (selectedRows st) < length (data p)).

(** The conditional at the end of the component. *)
Definition renderBody (p : Props (list T)) : Body :=
  if loading p then LoadingState
  else if bool_decide (0 < length (data p)) then TableBody
  else EmptyState.

(** *** Vocabulary of the properties *)


(** [a] may be displayed before [b]: ascending, [a] is not greater than [b];
    descending, [a] is not less than [b]. *)
Definition inOrder (k : string) (o : SortOrder) (a b : T) : Prop :=
  match o with
  | asc => js_gt (get a k) (get b k) = false
  | desc => js_lt (get a k) (get b k) = false
  end.

(** The selection [S] has a record with the key value of every record of
    [d]. *)
Definition selectsAll (rk : string) (d S : list T) : Prop :=
  ∀ r, r ∈ d → Exists (λ r', get r' rk = get r rk) S.

End View.

(** [<] is a strict weak order: the comparator of [sortedData] is then a
    consistent comparator in the sense of ECMAScript. *)
Record StrictWeakOrder {Val : Type} (lt : Val → Val → bool) : Prop := {
  swo_asym : ∀ a b, lt a b = true → lt b a = false;
  swo_negtrans : ∀ a b c, lt a b = false → lt b c = false → lt a c = false
}.

End DataTable.

(** ** The table over a store of arrays

    The same handlers with the arrays held by reference.  [[...a]], [filter]
    and the array literals allocate; [sort] writes into the array it is
    called on and returns it. *)

Module DataTableHeap.
Import DataTable.

Definition loc := positive.

Section Store.
Context {T Val : Type} `{ValEq : JS.JsValue Val}.
Variable js_lt : Val → Val → bool.

(** The arrays of records, by reference, and the properties of the records. *)
Record store := {
  arrays : gmap loc (list T);
  fields : T → string → Val
}.

Definition M (A : Type) : Type := store → option (A * store).

#[local] Instance M_ret : MRet M := λ A a σ, Some (a, σ).
#[local] Instance M_bind : MBind M := λ A B f m σ,
  match m σ with
  | Some (a, σ') => f a σ'
  | None => None
  end.

Definition alloc (xs : list T) : M loc := λ σ,
  let l := fresh (dom (arrays σ)) in
  Some (l, {| arrays := <[l := xs]> (arrays σ); fields := fields σ |}).

Definition read (l : loc) : M (list T) := λ σ,
  match arrays σ !! l with
  | Some xs => Some (xs, σ)
  | None => None
  end.

Definition write (l : loc) (xs : list T) : M unit := λ σ,
  match arrays σ !! l with
  | Some _ => Some (tt, {| arrays := <[l := xs]> (arrays σ); fields := fields σ |})
  | None => None
  end.

Definition readFields : M (T → string → Val) := λ σ, Some (fields σ, σ).

(** [[...a]] *)
Definition spread (a : loc) : M loc :=
  xs ← read a; alloc xs.

(** [a.sort(cmp)]: sorts [a] in place and returns [a]. *)
Definition sort (cmp : (T → string → Val) → T → T → Z) (a : loc) : M loc :=
  get ← readFields;
  xs ← read a;
  write a (JS.Array_sort (cmp get) xs);;
  mret a.

Definition sortedData (p : Props loc) (st : TableState loc) : M loc :=
  match sortKey st, sortOrder st with
  | Some k, Some o =>
      if negb (JS.truthy (Some k)) then mret (data p)
      else
        sorted ← spread (data p);
        sort (λ get, compareRows get js_lt k o) sorted
  | _, _ => mret (data p)
  end.

(** The variant without the copy, [data.sort(...)], for comparison. *)
Definition sortedDataNoCopy (p : Props loc) (st : TableState loc) : M loc :=
  match sortKey st, sortOrder st with
  | Some k, Some o =>
      if negb (JS.truthy (Some k)) then mret (data p)
      else sort (λ get, compareRows get js_lt k o) (data p)
  | _, _ => mret (data p)
  end.

(** [prev.some(..) ? prev.filter(..) : [...prev, row]]: in both branches the
    new selection is a new array. *)
Definition handleSelectRow (p : Props loc) (row : T) (st : TableState loc)
  : M (TableState loc * list loc) :=
  get ← readFields;
  prev ← read (selectedRows st);
  newSelection ← alloc (toggleRow get (rowKey p) row prev);
  mret ({| sortKey := sortKey st; sortOrder := sortOrder st;
           selectedRows := newSelection |},
        notify p newSelection).

(** [prev.length === data.length ? [] : [...data]] *)
Definition handleSelectAll (p : Props loc) (st : TableState loc)
  : M (TableState loc * list loc) :=
  prev ← read (selectedRows st);
  d ← read (data p);
  newSelection ← alloc (toggleAll d prev);
  mret ({| sortKey := sortKey st; sortOrder := sortOrder st;
           selectedRows := newSelection |},
        notify p newSelection).

(** The contents of the arrays a state and its props refer to. *)
Definition propsIn (σ : store) (p : Props loc) : option (Props (list T)) :=
  d ← arrays σ !! data p;
  Some {| data := d; columns := columns p; loading := loading p;
          selectable := selectable p; onRowSelect := onRowSelect p;
          rowKey := rowKey p |}.

Definition stateIn (σ : store) (st : TableState loc) : option (TableState (list T)) :=
  s ← arrays σ !! selectedRows st;
  Some {| sortKey := sortKey st; sortOrder := sortOrder st; selectedRows := s |}.

(** Every array of [σ] is in [σ'] with the same elements, and the records
    have the same properties. *)
Definition preserved (σ σ' : store) : Prop :=
  (∀ l xs, arrays σ !! l = Some xs → arrays σ' !! l = Some xs)
  ∧ fields σ' = fields σ.

End Store.

End DataTableHeap.

(** ** The input field *)

Module InputField.

(** [InputFieldProps]: the props the component reads.  [type] defaults to
    ['text'], the flags to [false]; [onClear] records whether the host
    supplied the callback. *)
Record Props := {
  type : option string;
  value : option string;
  label : option string;
  placeholder : option string;
  helperText : option string;
  errorMessage : option string;
  disabled : bool;
  invalid : bool;
  loading : bool;
  onClear : bool
}.

(** The paragraph below the input. *)
Inductive Message :=
  | ErrorParagraph (text : string)
  | HelperParagraph (text : string).

(** What the component renders, for a value [showPassword] of its state. *)
Record View := {
  inputType : string;
  inputValue : option string;
  inputDisabled : bool;
  ariaInvalid : bool;
  spinner : bool;
  clearButton : bool;
  passwordButton : bool;
  message : option Message
}.

Definition typeOf (p : Props) : string := default "text" (type p).

Definition isPassword (p : Props) : bool := String.eqb (typeOf p) "password".

(** [!!onClear && value && value.length > 0] *)
Definition hasClearButton (p : Props) : bool :=
  onClear p && JS.truthy (value p)
  && bool_decide (0 < String.length (default "" (value p))).

Definition render (p : Props) (showPassword : bool) : View :=
  {| inputType := if isPassword p && showPassword then "text" else typeOf p;
     inputValue := value p;
     inputDisabled := disabled p || loading p;
     ariaInvalid := invalid p;
     spinner := loading p;
     clearButton := hasClearButton p;
     passwordButton := isPassword p;
     message :=
       if invalid p && JS.truthy (errorMessage p)
       then ErrorParagraph <$> errorMessage p
       else if JS.truthy (helperText p)
       then HelperParagraph <$> helperText p
       else None |}.

(** [useState(false)] *)
Definition initial : bool := false.

(** The click handler of the password button: [setShowPassword(!showPassword)].
    The button is rendered only for a password field. *)
Definition clickPasswordButton (p : Props) (showPassword : bool) : bool :=
  if passwordButton (render p showPassword) then negb showPassword
  else showPassword.

End InputField.

(** ** Sample records

    Records [{ id: number, age: number, "": number }] with numeric attributes,
    compared by [<] on numbers.  The keys of such a record are "id", "age"
    and the empty name; [get] reads the last attribute for the empty name.
    The table has a sortable column for each of the three. *)

Module Sample.
Import DataTable.

Record Row := { id : Z; age : Z; blank : Z }.

#[global] Instance Row_eq_dec : EqDecision Row.
Proof. solve_decision. Defined.

Definition get (r : Row) (k : string) : Z :=
  if decide (k = "id") then id r
  else if decide (k = "age") then age r
  else blank r.

(** The attributes are integers: none of them is NaN. *)
#[global] Instance Z_value : JS.JsValue Z :=
  {| JS.JsValue_eq_dec := Z.eq_dec; JS.isNaN := λ _, false |}.

Definition lt (a b : Z) : bool := (a <? b)%Z.

Definition row (i a : Z) : Row := {| id := i; age := a; blank := a |}.

Definition column (k : string) : Column :=
  {| key := k; title := k; dataIndex := k; sortable := true |}.

Definition props (d : list Row) : Props (list Row) :=
  {| data := d; columns := [column "id"; column "age"; column ""];
     loading := false; selectable := true; onRowSelect := true;
     rowKey := "id" |}.

Definition state (k : option string) (o : option SortOrder) (S : list Row)
  : TableState (list Row) :=
  {| sortKey := k; sortOrder := o; selectedRows := S |}.

(** A store that holds the data of a table over three records and an empty
    selection, with the props and the state that refer to them. *)
Definition sampleStore : @DataTableHeap.store Row Z :=
  {| DataTableHeap.arrays :=
       {[ 1%positive := [row 1 30; row 2 10; row 3 20]; 2%positive := [] ]};
     DataTableHeap.fields := get |}.

Definition sampleProps : Props DataTableHeap.loc :=
  {| data := 1%positive; columns := [column "id"; column "age"; column ""];
     loading := false; selectable := true; onRowSelect := true;
     rowKey := "id" |}.

Definition sampleState : TableState DataTableHeap.loc :=
  {| sortKey := Some "age"; sortOrder := Some asc; selectedRows := 2%positive |}.

End Sample.

(** ** Sample records with irregular values

    Records [{ id: number, age?: number }] in which an attribute may be
    absent ([undefined]) or NaN. *)

Module Irregular.
Import DataTable.

Inductive Value := Num (n : Z) | NaN | Undefined.

#[global] Instance Value_eq_dec : EqDecision Value.
Proof. solve_decision. Defined.

#[global] Instance Value_value : JS.JsValue Value :=
  {| JS.JsValue_eq_dec := Value_eq_dec;
     JS.isNaN := λ v, match v with NaN => true | _ => false end |}.

(** [a < b] converts both operands to numbers; [undefined] converts to NaN,
    and a comparison with NaN is false. *)
Definition lt (a b : Value) : bool :=
  match a, b with
  | Num x, Num y => (x <? y)%Z
  | _, _ => false
  end.

Record Row := { id : Value; age : Value }.

#[global] Instance Row_eq_dec : EqDecision Row.
Proof. solve_decision. Defined.

Definition get (r : Row) (k : string) : Value :=
  if decide (k = "id") then id r
  else if decide (k = "age") then age r
  else Undefined.

Definition row (i a : Value) : Row := {| id := i; age := a |}.

Definition props (d : list Row) : Props (list Row) :=
  {| data := d; columns := [Sample.column "id"; Sample.column "age"];
     loading := false; selectable := true; onRowSelect := true;
     rowKey := "id" |}.

Definition state (k : option string) (o : option SortOrder) (S : list Row)
  : TableState (list Row) :=
  {| sortKey := k; sortOrder := o; selectedRows := S |}.

End Irregular.

(** * Part II: properties *)

(** ** [Array.prototype.sort] *)

Module JSFacts.
Import JS.

Lemma truthy_Some s : truthy (Some s) = true ↔ s ≠ "".
Proof.
  simpl. rewrite negb_true_iff. split.
  - intros E ->. by rewrite String.eqb_refl in E.
  - intros Hs. by apply String.eqb_neq.
Qed.

Lemma truthy_empty : truthy (Some "") = false.
Proof. done. Qed.



Lemma StronglySorted_mono {A} (R R' : relation A) l :
  (∀ a b, R a b → R' a b) → StronglySorted R l → StronglySorted R' l.
Proof.
  intros HR. induction 1 as [|a l Hs IH Ha]; constructor; [done|].
  eapply Forall_impl; [exact Ha|]. intros b. apply HR.
Qed.

Section Insertion.
Context {A : Type} (cmp : A → A → Z).

Lemma sort_insert_Permutation x l : sort_insert cmp x l ≡ₚ x :: l.
Proof.
  induction l as [|y l IH]; simpl; [done|].
  destruct (0 <? cmp x y)%Z; [|done].
  rewrite IH. apply Permutation_swap.
Qed.

Lemma Array_sort_Permutation l : Array_sort cmp l ≡ₚ l.
Proof.
  induction l as [|x l IH]; simpl; [done|].
  by rewrite sort_insert_Permutation, IH.
Qed.

Lemma Array_sort_length l : length (Array_sort cmp l) = length l.
Proof. by rewrite Array_sort_Permutation. Qed.








(** For a comparator that is total and transitive, the result is sorted. *)
Section Sorted.
Hypothesis keeps_total : ∀ x y, ¬ keeps cmp x y → keeps cmp y x.
Hypothesis keeps_trans : ∀ x y z, keeps cmp x y → keeps cmp y z → keeps cmp x z.





End Sorted.

End Insertion.

End JSFacts.

(** ** The sort state machine and the body of the table *)

Module SortStateFacts.
Import DataTable.

Section Clicks.
Context {Arr : Type}.
Implicit Types (st : TableState Arr) (col : Column).

Lemma handleSort_other k st :
  sortKey st ≠ Some k →
  handleSort k st =
    {| sortKey := Some k; sortOrder := Some asc; selectedRows := selectedRows st |}.
Proof. intros Hk. unfold handleSort. by rewrite decide_False. Qed.

Lemma handleSort_same k o st :
  sortKey st = Some k → sortOrder st = Some o →
  handleSort k st =
    {| sortKey := Some k; sortOrder := Some (flip o); selectedRows := selectedRows st |}.
Proof.
  intros Hk Ho. unfold handleSort. rewrite decide_True by done.
  rewrite Hk, Ho. by destruct o.
Qed.

Lemma handleSort_sorted k st : ¬ unsorted (handleSort k st).
Proof.
  unfold handleSort, unsorted. case_decide as Hk; simpl.
  - rewrite Hk. intros [|]; discriminate.
  - intros [|]; discriminate.
Qed.

Lemma handleSort_selection k st : selectedRows (handleSort k st) = selectedRows st.
Proof. unfold handleSort. by case_decide. Qed.

Lemma clickHeader_sorted col st :
  ¬ unsorted st → ¬ unsorted (clickHeader col st).
Proof.
  intros Hs. unfold clickHeader. destruct (sortable col); [|done].
  apply handleSort_sorted.
Qed.

Lemma clickHeaders_sorted cols st :
  ¬ unsorted st → ¬ unsorted (clickHeaders cols st).
Proof.
  revert st. induction cols as [|col cols IH]; intros st Hs; [done|].
  simpl. apply IH. by apply clickHeader_sorted.
Qed.

(** The chevron of a header points up exactly when its column is the sort
    column and the direction is ascending. *)
Lemma headerChevron_up col st :
  headerChevron col st = ChevronUp ↔
  sortKey st = Some (dataIndex col) ∧ sortOrder st = Some asc.
Proof.
  unfold headerChevron. repeat case_decide; split; try done; intros []; done.
Qed.

(** C1. Clicking the header of a sortable column that is not the sort column
    makes it the sort column, ascending; clicking the header of the sort
    column flips the direction; after that click no sequence of header clicks
    brings the sort state back to none; and three clicks on the header of a
    column that was not the sort column give ascending, descending,
    ascending. *)
Theorem header_click_cycle col st :
  sortable col = true →
  (sortKey st ≠ Some (dataIndex col) →
     sortKey (clickHeader col st) = Some (dataIndex col)
     ∧ sortOrder (clickHeader col st) = Some asc)
  ∧ (∀ o, sortKey st = Some (dataIndex col) → sortOrder st = Some o →
     sortKey (clickHeader col st) = Some (dataIndex col)
     ∧ sortOrder (clickHeader col st) = Some (flip o))
  ∧ (∀ cols, ¬ unsorted (clickHeaders cols (clickHeader col st)))
  ∧ (sortKey st ≠ Some (dataIndex col) →
     sortOrder (clickHeaders [col] st) = Some asc
     ∧ sortOrder (clickHeaders [col; col] st) = Some desc
     ∧ sortOrder (clickHeaders [col; col; col] st) = Some asc
     ∧ sortKey (clickHeaders [col; col; col] st) = Some (dataIndex col)).
Proof.
  intros Hs. unfold clickHeaders, clickHeader. simpl. rewrite Hs.
  split; [|split; [|split]].
  - intros Hk. by rewrite handleSort_other.
  - intros o Hk Ho. by rewrite (handleSort_same _ o).
  - intros cols. apply clickHeaders_sorted, handleSort_sorted.
  - intros Hk. rewrite (handleSort_other _ _ Hk).
    rewrite (handleSort_same _ asc) by done.
    by rewrite (handleSort_same _ desc).
Qed.

End Clicks.

Section Body.
Context {T : Type}.

(** C4. The body is the loading state when [loading] is set, whatever the
    data; otherwise the empty state when there is no record, whatever the
    other props; otherwise the rows. *)
Theorem renderBody_priority (p : Props (list T)) :
  (loading p = true → renderBody p = LoadingState)
  ∧ (loading p = false → data p = [] → renderBody p = EmptyState)
  ∧ (loading p = false → data p ≠ [] → renderBody p = TableBody).
Proof.
  unfold renderBody. repeat split.
  - by intros ->.
  - by intros -> ->.
  - intros -> Hd. destruct (data p) as [|r d]; [done|].
    by rewrite bool_decide_true by (simpl; lia).
Qed.

(** The three states exclude one another: the body depends on [loading] and
    on the emptiness of the data only. *)
Lemma renderBody_selectable (p : Props (list T)) b :
  renderBody {| data := data p; columns := columns p; loading := loading p;
                selectable := b; onRowSelect := onRowSelect p;
                rowKey := rowKey p |} = renderBody p.
Proof. done. Qed.

End Body.

End SortStateFacts.

(** C1, on the sample table: three clicks on the "age" header from the
    initial state. *)
Lemma header_click_cycle_witness :
  DataTable.sortable (Sample.column "age") = true
  ∧ DataTable.sortOrder
      (DataTable.clickHeaders
         [Sample.column "age"; Sample.column "age"; Sample.column "age"]
         (Sample.state None None [])) = Some DataTable.asc.
Proof.
  split; [reflexivity|].
  apply (SortStateFacts.header_click_cycle (Sample.column "age")
           (Sample.state None None [])); [reflexivity|].
  simpl. discriminate.
Defined.

(** ** The displayed sequence *)

Module SortedDataFacts.
Import JS DataTable JSFacts.

Section View.
Context {T Val : Type}.
Variable get : T → string → Val.
Variable js_lt : Val → Val → bool.
Implicit Types (p : Props (list T)) (st : TableState (list T)).
Implicit Types (k : string) (o : SortOrder) (a b : T).

#[local] Abbreviation cmp := (compareRows get js_lt).


(** Without a sort column, without a direction, or with the empty accessor,
    the data is displayed as supplied. *)
Lemma sortedData_inactive p st :
  truthy (sortKey st) = false ∨ sortOrder st = None →
  sortedData get js_lt p st = data p.
Proof.
  unfold sortedData. intros [Hk| ->].
  - destruct (sortKey st) as [k|]; [|done]. rewrite Hk. simpl.
    by destruct (sortOrder st).
  - by destruct (sortKey st).
Qed.


Lemma keeps_desc k a b :
  keeps (cmp k desc) a b ↔ inOrder get js_lt k desc a b.
Proof.
  unfold keeps, compareRows, inOrder, js_gt. simpl.
  destruct (js_lt (get a k) (get b k)); [split; [lia|done]|].
  destruct (js_lt (get b k) (get a k)); split; (done || lia).
Qed.

Section Consistent.
Hypothesis lt_swo : StrictWeakOrder js_lt.

Lemma keeps_asc k a b :
  keeps (cmp k asc) a b ↔ inOrder get js_lt k asc a b.
Proof using lt_swo.
  unfold keeps, compareRows, inOrder, js_gt. simpl.
  destruct (js_lt (get a k) (get b k)) eqn:E.
  - rewrite (swo_asym _ lt_swo _ _ E). split; [done|lia].
  - destruct (js_lt (get b k) (get a k)); split; (done || lia).
Qed.

Lemma keeps_inOrder k o a b :
  keeps (cmp k o) a b ↔ inOrder get js_lt k o a b.
Proof using lt_swo. destruct o; [apply keeps_asc|apply keeps_desc]. Qed.





End Consistent.




End View.

End SortedDataFacts.

(** *** The sample table *)

Module SampleFacts.
Import DataTable Sample.

Lemma lt_strict_weak_order : StrictWeakOrder lt.
Proof. split; unfold lt; intros; lia. Qed.

(** Four records with two ties on "age": ascending and descending, the tied
    records stay in the order of the data. *)
Example sortedData_age_asc :
  sortedData get lt (props [row 1 30; row 2 10; row 3 30; row 4 10])
    (state (Some "age") (Some asc) [])
  = [row 2 10; row 4 10; row 1 30; row 3 30].
Proof. reflexivity. Qed.

Example sortedData_age_desc :
  sortedData get lt (props [row 1 30; row 2 10; row 3 30; row 4 10])
    (state (Some "age") (Some desc) [])
  = [row 1 30; row 3 30; row 2 10; row 4 10].
Proof. reflexivity. Qed.

(** The guard [!sortKey] of [sortedData] takes the empty accessor for no
    sort column.  The header of the column whose accessor is the empty name
    is clicked: the header shows the column as sorted, ascending, and the
    rows stay in the order of the data, the larger value first. *)
Lemma sortedData_empty_accessor :
  let p := props [row 1 20; row 2 10] in
  let st := clickHeader (column "") initial in
  StrictWeakOrder lt
  ∧ sortKey st = Some ""
  ∧ sortOrder st = Some asc
  ∧ headerChevron (column "") st = ChevronUp
  ∧ sortedData get lt p st = [row 1 20; row 2 10]
  ∧ ¬ StronglySorted (inOrder get lt "" asc) (sortedData get lt p st).
Proof.
  split; [exact lt_strict_weak_order|].
  repeat split. intros Hs.
  apply StronglySorted_inv in Hs as [_ Hf].
  apply Forall_cons in Hf as [Hf _]. discriminate Hf.
Qed.

End SampleFacts.


(** *** Records with irregular values *)

Module IrregularFacts.
Import DataTable Irregular.

Lemma lt_not_strict_weak_order : ¬ StrictWeakOrder lt.
Proof.
  intros [_ Hneg].
  discriminate (Hneg (Num 1) Undefined (Num 3) eq_refl eq_refl).
Qed.


(** C5 does not hold for a key that is NaN.  The data is one record whose
    "id" is NaN: select-all selects it, and the toggle of its row does not
    find it in the selection, since NaN is not strictly equal to NaN, and
    adds it again.  The selection has two records, and not none. *)
Lemma NaN_key_toggled_after_select_all :
  let r := row NaN (Num 30) in
  let p := props [r] in
  let st1 := (handleSelectAll p initial).1 in
  let st2 := (handleSelectRow get p r st1).1 in
  data p ≠ []
  ∧ NoDup ((λ x, get x (rowKey p)) <$> data p)
  ∧ r ∈ data p
  ∧ selectedRows st1 = data p
  ∧ selectedRows st2 = [r; r]
  ∧ length (selectedRows st2) ≠ length (data p) - 1
  ∧ (handleSelectRow get p r st1).2 = [[r; r]].
Proof.
  split; [discriminate|].
  split; [apply (bool_decide_unpack _); by vm_compute|].
  split; [by left|]. split; [reflexivity|]. split; [reflexivity|].
  split; [discriminate|reflexivity].
Qed.

(** C10 does not hold for a row whose key is NaN.  No record of the selection
    has the key of the row, and two toggles of the row do not give the
    selection back: each of them adds the row. *)
Lemma toggle_twice_NaN_key :
  let r := row NaN (Num 30) in
  let p := props [row (Num 1) (Num 10); r] in
  let st := state None None [row (Num 1) (Num 10)] in
  let st2 := (handleSelectRow get p r (handleSelectRow get p r st).1).1 in
  Forall (λ x, ¬ sameKey get (rowKey p) r x) (selectedRows st)
  ∧ selectedRows st2 = [row (Num 1) (Num 10); r; r]
  ∧ selectedRows st2 ≠ selectedRows st.
Proof.
  split; [|split; [reflexivity|discriminate]].
  repeat constructor. intros Hk. discriminate Hk.
Qed.

End IrregularFacts.

(** ** The selection *)

Module SelectionFacts.
Import DataTable.

Section Selection.
Context {T Val : Type} `{ValEq : JS.JsValue Val}.
Variable get : T → string → Val.
Implicit Types (p : Props (list T)) (st : TableState (list T)).
Implicit Types (rk : string) (row r : T) (S d : list T).

(** Strict equality of keys is the identity of key values that are not NaN:
    it is symmetric and transitive, and reflexive on every key but NaN. *)
Lemma sameKey_spec rk row r :
  sameKey get rk row r ↔ get r rk = get row rk ∧ JS.isNaN (get r rk) = false.
Proof.
  unfold sameKey, JS.strict_eq.
  by rewrite andb_true_iff, bool_decide_eq_true, negb_true_iff.
Qed.

Lemma sameKey_refl rk r :
  sameKey get rk r r ↔ JS.isNaN (get r rk) = false.
Proof. rewrite sameKey_spec. tauto. Qed.

Lemma sameKey_sym rk a b : sameKey get rk a b → sameKey get rk b a.
Proof. rewrite !sameKey_spec. intros [E N]. split; congruence. Qed.

Lemma sameKey_trans rk a b c :
  sameKey get rk a b → sameKey get rk b c → sameKey get rk a c.
Proof. rewrite !sameKey_spec. intros [E1 N1] [E2 N2]. split; congruence. Qed.

Lemma sameKey_self rk a b : sameKey get rk a b → sameKey get rk a a.
Proof. intros H. exact (sameKey_trans _ _ _ _ H (sameKey_sym _ _ _ H)). Qed.

Lemma toggleRow_absent rk row S :
  Forall (λ r, ¬ sameKey get rk row r) S →
  toggleRow get rk row S = S ++ [row].
Proof.
  intros Hf. unfold toggleRow. rewrite bool_decide_false; [done|].
  by apply Forall_Exists_neg.
Qed.

Lemma toggleRow_present rk row S :
  Exists (sameKey get rk row) S →
  toggleRow get rk row S = filter (λ r, ¬ sameKey get rk row r) S.
Proof. intros He. unfold toggleRow. by rewrite bool_decide_true. Qed.

Lemma filter_absent rk row S :
  Forall (λ r, ¬ sameKey get rk row r) S →
  filter (λ r, ¬ sameKey get rk row r) S = S.
Proof.
  induction 1 as [|r S Hr _ IH]; [done|].
  by rewrite filter_cons, decide_True, IH.
Qed.

Lemma toggleRow_twice rk row S :
  sameKey get rk row row →
  Forall (λ r, ¬ sameKey get rk row r) S →
  toggleRow get rk row (toggleRow get rk row S) = S.
Proof.
  intros Hrow Hf. rewrite (toggleRow_absent _ _ _ Hf).
  rewrite toggleRow_present.
  - rewrite filter_app, (filter_absent _ _ _ Hf), filter_cons.
    rewrite decide_False; [by rewrite filter_nil, app_nil_r|].
    intros Hn. by apply Hn.
  - apply Exists_app. right. by left.
Qed.

(** A row whose key is NaN is never found in the selection: every toggle
    appends it. *)
Lemma toggleRow_NaN rk row S :
  JS.isNaN (get row rk) = true →
  toggleRow get rk row S = S ++ [row].
Proof.
  intros Hnan. apply toggleRow_absent, Forall_forall. intros r _ Hk.
  apply sameKey_self, sameKey_refl in Hk. congruence.
Qed.

(** Removing the records with one key from records with distinct keys
    removes one record. *)
Lemma filter_key_length rk row d :
  NoDup ((λ r, get r rk) <$> d) →
  Exists (sameKey get rk row) d →
  length (filter (λ r, ¬ sameKey get rk row r) d) = length d - 1.
Proof.
  induction d as [|x d IH]; intros Hnd He; [by apply Exists_nil in He|].
  rewrite fmap_cons in Hnd. apply NoDup_cons in Hnd as [Hx Hnd].
  rewrite filter_cons. destruct (decide (¬ sameKey get rk row x)) as [Hn|Hs].
  - apply Exists_cons in He as [He|He]; [done|].
    simpl. rewrite IH by done.
    destruct d; [by apply Exists_nil in He|simpl; lia].
  - apply dec_stable in Hs. simpl. rewrite Nat.sub_0_r. f_equal.
    apply filter_absent, Forall_forall. intros r Hr Hk.
    apply Hx. apply sameKey_spec in Hs as [Hs _], Hk as [Hk _].
    rewrite Hs, <- Hk.
    by apply (list_elem_of_fmap_2 (λ r, get r rk)).
Qed.

(** The checkbox of the header is never both checked and indeterminate. *)
Lemma header_checkbox_exclusive p st :
  isAllSelected p st && isIndeterminate p st = false.
Proof.
  unfold isAllSelected, isIndeterminate.
  repeat case_bool_decide; simpl; try done. lia.
Qed.

(** C10, for a row whose key is not NaN.  Toggling the row is an involution
    by key: when no record of the selection has the key of the row, toggling
    it twice gives the selection back; when some record has its key, one
    toggle removes every record with that key and keeps the other records,
    in their order. *)
Theorem handleSelectRow_involution p row st :
  (JS.isNaN (get row (rowKey p)) = false →
   Forall (λ r, ¬ sameKey get (rowKey p) row r) (selectedRows st) →
     selectedRows (handleSelectRow get p row (handleSelectRow get p row st).1).1
     = selectedRows st)
  ∧ (Exists (sameKey get (rowKey p) row) (selectedRows st) →
     let S' := selectedRows (handleSelectRow get p row st).1 in
     S' = filter (λ r, ¬ sameKey get (rowKey p) row r) (selectedRows st)
     ∧ Forall (λ r, ¬ sameKey get (rowKey p) row r) S'
     ∧ (∀ r, r ∈ selectedRows st → ¬ sameKey get (rowKey p) row r → r ∈ S')
     ∧ S' `sublist_of` selectedRows st).
Proof.
  split.
  - intros Hrow Hf. simpl. apply toggleRow_twice; [|done].
    by apply sameKey_refl.
  - intros He. simpl. rewrite (toggleRow_present _ _ _ He).
    split; [done|]. split; [|split].
    + apply Forall_forall. intros r Hr. by apply list_elem_of_filter in Hr as [].
    + intros r Hr Hn. by apply list_elem_of_filter.
    + apply sublist_filter.
Qed.

(** C5, for a row whose key is strictly equal to the key of a record of the
    data, so not NaN.  With distinct keys in the data, select-all followed by
    the toggle of the row leaves the records of the data with another key:
    one less than the data, and the callback receives that selection.  The
    toggle goes by the key and not by the record, from every selection: when
    a selected record has the key of the row, the records with that key are
    removed; when none has, the row is added at the end; and the callback
    receives the new selection. *)
Theorem select_all_then_toggle p row st :
  data p ≠ [] →
  NoDup ((λ r, get r (rowKey p)) <$> data p) →
  length (selectedRows st) ≠ length (data p) →
  Exists (sameKey get (rowKey p) row) (data p) →
  let st1 := (handleSelectAll p st).1 in
  let st2 := (handleSelectRow get p row st1).1 in
  selectedRows st1 = data p
  ∧ length (selectedRows st2) = length (data p) - 1
  ∧ (∀ r, r ∈ selectedRows st2 ↔ r ∈ data p ∧ get r (rowKey p) ≠ get row (rowKey p))
  ∧ selectedRows st2 = filter (λ r, ¬ sameKey get (rowKey p) row r) (data p)
  ∧ (handleSelectRow get p row st1).2 = notify p (selectedRows st2)
  ∧ (onRowSelect p = true →
     (handleSelectRow get p row st1).2 = [selectedRows st2])
  ∧ (∀ st0,
       let S0 := selectedRows st0 in
       let S1 := selectedRows (handleSelectRow get p row st0).1 in
       (Exists (sameKey get (rowKey p) row) S0 →
          S1 = filter (λ r, ¬ sameKey get (rowKey p) row r) S0)
       ∧ (Forall (λ r, ¬ sameKey get (rowKey p) row r) S0 → S1 = S0 ++ [row])
       ∧ (handleSelectRow get p row st0).2 = notify p S1
       ∧ (onRowSelect p = true → (handleSelectRow get p row st0).2 = [S1])).
Proof.
  intros Hd Hnd Hlen He. simpl.
  assert (Hall : toggleAll (data p) (selectedRows st) = data p).
  { unfold toggleAll. by rewrite bool_decide_false. }
  rewrite Hall, (toggleRow_present _ _ _ He).
  split; [done|]. split; [by apply filter_key_length|].
  split; [|split; [done|split; [done|split]]].
  - assert (Hrow : JS.isNaN (get row (rowKey p)) = false).
    { apply Exists_exists in He as (x & _ & Hx).
      by apply sameKey_sym, sameKey_spec in Hx as [_ Hx]. }
    intros r. rewrite list_elem_of_filter, sameKey_spec.
    split.
    + intros [Ha Hb]. split; [done|].
      intros E. apply Ha. split; [done|]. by rewrite E.
    + intros [Ha Hb]. split; [|done]. by intros [E _].
  - intros Hc. unfold notify. by rewrite Hc.
  - intros st0. split; [apply toggleRow_present|].
    split; [apply toggleRow_absent|]. split; [done|].
    intros Hc. unfold notify. by rewrite Hc.
Qed.

(** C7. Without data, select-all gives the empty selection and passes
    nothing but the empty selection to the callback, from every selection
    and however often it is activated. *)
Theorem select_all_without_data p st n :
  data p = [] →
  selectedRows (handleSelectAll p st).1 = []
  ∧ Forall (λ c, c = []) (handleSelectAll p st).2
  ∧ (0 < n → selectedRows (selectAllTimes n p st).1 = [])
  ∧ Forall (λ c, c = []) (selectAllTimes n p st).2.
Proof.
  intros Hd.
  assert (Hone : ∀ st', selectedRows (handleSelectAll p st').1 = []
                        ∧ Forall (λ c, c = []) (handleSelectAll p st').2).
  { intros st'. simpl. unfold toggleAll, notify. rewrite Hd.
    split; [by case_bool_decide|].
    destruct (onRowSelect p); [|done]. constructor; [|done].
    by case_bool_decide. }
  split; [apply Hone|]. split; [apply Hone|].
  revert st. induction n as [|n IH]; intros st.
  { split; [lia|done]. }
  simpl. destruct (Hone st) as [Hs Hc]. simpl in Hs, Hc.
  specialize (IH (handleSelectAll p st).1). simpl in IH.
  destruct (selectAllTimes n p _) as [st2 c2] eqn:E.
  destruct IH as [IHs IHc]. simpl. split.
  - intros _. destruct n as [|n].
    + simpl in E. injection E as <- <-. done.
    + apply IHs. lia.
  - apply Forall_app. done.
Qed.

(** C3, as the handler decides it.  Select-all gives the data or the empty
    selection: the empty selection when the selection has as many records as
    the data, the data, in its own order, otherwise; the callback, when
    there is one, receives that selection, and the sort state is untouched.
    For a selection of records of the data with distinct keys, out of data
    with distinct keys, "as many records" is "a record for every key". *)
Theorem handleSelectAll_by_length p st :
  let S' := selectedRows (handleSelectAll p st).1 in
  (S' = data p ∨ S' = [])
  ∧ (length (selectedRows st) = length (data p) → S' = [])
  ∧ (length (selectedRows st) ≠ length (data p) → S' = data p)
  ∧ (handleSelectAll p st).2 = (if onRowSelect p then [S'] else [])
  ∧ sortKey (handleSelectAll p st).1 = sortKey st
  ∧ sortOrder (handleSelectAll p st).1 = sortOrder st
  ∧ (NoDup ((λ r, get r (rowKey p)) <$> data p) →
     NoDup ((λ r, get r (rowKey p)) <$> selectedRows st) →
     selectedRows st ⊆ data p →
     (length (selectedRows st) = length (data p)
      ↔ selectsAll get (rowKey p) (data p) (selectedRows st))).
Proof.
  simpl. unfold toggleAll.
  split; [case_bool_decide; auto|].
  split; [by intros; rewrite bool_decide_true|].
  split; [by intros; rewrite bool_decide_false|].
  split; [done|]. split; [done|]. split; [done|].
  intros Hd Hs Hsub.
  set (f := λ r : T, get r (rowKey p)) in *.
  assert (Hsm : f <$> selectedRows st ⊆+ f <$> data p).
  { apply NoDup_submseteq; [done|]. intros v Hv.
    apply list_elem_of_fmap in Hv as (r & -> & Hr).
    apply list_elem_of_fmap_2. by apply Hsub. }
  split.
  - intros Hlen r Hr.
    assert (Hp : f <$> selectedRows st ≡ₚ f <$> data p).
    { apply submseteq_length_Permutation; [done|]. rewrite !length_fmap. lia. }
    assert (Hin : f r ∈ f <$> selectedRows st).
    { rewrite Hp. by apply list_elem_of_fmap_2. }
    apply list_elem_of_fmap in Hin as (r' & E & Hr').
    apply Exists_exists. exists r'. split; [done|]. symmetry. exact E.
  - intros Hall.
    assert (Hp : f <$> data p ⊆+ f <$> selectedRows st).
    { apply NoDup_submseteq; [done|]. intros v Hv.
      apply list_elem_of_fmap in Hv as (r & -> & Hr).
      apply Hall, Exists_exists in Hr as (r' & Hr' & Hk).
      change (f r' = f r) in Hk. rewrite <- Hk.
      by apply list_elem_of_fmap_2. }
    apply submseteq_length in Hsm, Hp. rewrite !length_fmap in Hsm, Hp. lia.
Qed.

End Selection.

End SelectionFacts.

(** ** The store: what the handlers write *)

Module HeapFacts.
Import DataTable DataTableHeap.

Section Store.
Context {T Val : Type} `{ValEq : JS.JsValue Val}.
Variable js_lt : Val → Val → bool.
Implicit Types (σ : @store T Val) (p : Props loc) (st : TableState loc).

#[local] Instance preserved_refl : Reflexive (@preserved T Val).
Proof. by split. Qed.

#[local] Instance preserved_trans : Transitive (@preserved T Val).
Proof.
  intros σ1 σ2 σ3 [H1 F1] [H2 F2]. split; [auto|]. by rewrite F2.
Qed.

(** An allocation gives a reference that was not in use. *)
Lemma alloc_spec xs σ :
  ∃ l σ', alloc xs σ = Some (l, σ')
          ∧ arrays σ !! l = None
          ∧ arrays σ' = <[l := xs]> (arrays σ)
          ∧ fields σ' = fields σ.
Proof.
  eexists _, _. split; [done|]. split; [|done].
  apply not_elem_of_dom, is_fresh.
Qed.

Lemma alloc_preserved xs σ l σ' :
  alloc xs σ = Some (l, σ') →
  preserved σ σ' ∧ arrays σ' !! l = Some xs ∧ arrays σ !! l = None.
Proof.
  destruct (alloc_spec xs σ) as (l0 & σ0 & E & Hfresh & Ha & Hf).
  rewrite E. intros [= <- <-]. split; [split; [|done]|].
  - intros l' ys Hl'. rewrite Ha, lookup_insert_ne; [done|]. congruence.
  - by rewrite Ha, lookup_insert_eq.
Qed.

(** [sort] writes the array it is given, and no other. *)
Lemma sort_spec cmp a xs σ :
  arrays σ !! a = Some xs →
  ∃ σ', sort cmp a σ = Some (a, σ')
        ∧ arrays σ' = <[a := JS.Array_sort (cmp (fields σ)) xs]> (arrays σ)
        ∧ fields σ' = fields σ.
Proof.
  intros Ha. eexists.
  unfold sort, readFields, read, write, mbind, M_bind, mret, M_ret.
  rewrite Ha. simpl. rewrite Ha. done.
Qed.

(** The props and the state are read in a store that holds their arrays. *)
Ltac read_store Hp Hst d sel :=
  let Hd := fresh "Hd" in
  let HS := fresh "HS" in
  unfold propsIn, stateIn in Hp, Hst;
  match type of Hp with
  | context [arrays ?σ !! data ?p] =>
      destruct (arrays σ !! data p) as [d|] eqn:Hd; [|done]
  end;
  match type of Hst with
  | context [arrays ?σ !! selectedRows ?st] =>
      destruct (arrays σ !! selectedRows st) as [sel|] eqn:HS; [|done]
  end;
  simpl in Hp, Hst; injection Hp as <-; injection Hst as <-.

(** The displayed array: its elements are those of the pure view, and with
    an active sort it is an array that was not in the store. *)
Lemma sortedData_spec p st σ
  (p' : Props (list T)) (st' : TableState (list T)) :
  propsIn σ p = Some p' → stateIn σ st = Some st' →
  ∃ l σ', sortedData js_lt p st σ = Some (l, σ')
          ∧ preserved σ σ'
          ∧ arrays σ' !! l = Some (DataTable.sortedData (fields σ) js_lt p' st')
          ∧ (JS.truthy (sortKey st) = true → is_Some (sortOrder st) →
             arrays σ !! l = None).
Proof.
  intros Hp Hst. read_store Hp Hst d sel.
  unfold sortedData, DataTable.sortedData. simpl.
  destruct (sortKey st) as [k|]; [|by exists (data p), σ].
  destruct (sortOrder st) as [o|].
  2:{ exists (data p), σ. repeat split; try done; intros _ [x Hx]; discriminate. }
  destruct (k =? "") eqn:Hk; simpl.
  { exists (data p), σ. repeat split; try done;
      intros Ht; simpl in Ht; by rewrite Hk in Ht. }
  unfold spread, read, mbind, M_bind. rewrite Hd.
  destruct (alloc_spec d σ) as (l & σ1 & E & Hfresh & Ha & Hf). rewrite E.
  assert (H1 : arrays σ1 !! l = Some d) by (by rewrite Ha, lookup_insert_eq).
  destruct (sort_spec (λ get, compareRows get js_lt k o) l d σ1 H1)
    as (σ2 & E2 & Ha2 & Hf2).
  exists l, σ2. split; [done|]. split; [split|split; [|done]].
  - intros l' ys Hl'. rewrite Ha2, Ha, !lookup_insert_ne; [done|congruence..].
  - by rewrite Hf2.
  - by rewrite Ha2, lookup_insert_eq, Hf.
Qed.

Lemma handleSelectRow_spec p row st σ
  (p' : Props (list T)) (st' : TableState (list T)) :
  propsIn σ p = Some p' → stateIn σ st = Some st' →
  ∃ st1 calls σ', handleSelectRow p row st σ = Some ((st1, calls), σ')
    ∧ preserved σ σ'
    ∧ stateIn σ' st1 = Some (DataTable.handleSelectRow (fields σ) p' row st').1
    ∧ calls = notify p (selectedRows st1)
    ∧ arrays σ !! selectedRows st1 = None.
Proof.
  intros Hp Hst. read_store Hp Hst d sel.
  unfold handleSelectRow, readFields, read, mbind, M_bind, mret, M_ret.
  rewrite HS.
  destruct (alloc_spec (toggleRow (fields σ) (rowKey p) row sel) σ)
    as (l & σ1 & E & Hfresh & Ha & Hf).
  rewrite E. eexists _, _, _. split; [done|].
  apply alloc_preserved in E as (Hpres & Hl & _).
  split; [done|]. unfold stateIn. simpl. rewrite Hl. done.
Qed.

Lemma handleSelectAll_spec p st σ
  (p' : Props (list T)) (st' : TableState (list T)) :
  propsIn σ p = Some p' → stateIn σ st = Some st' →
  ∃ st1 calls σ', handleSelectAll p st σ = Some ((st1, calls), σ')
    ∧ preserved σ σ'
    ∧ stateIn σ' st1 = Some (DataTable.handleSelectAll p' st').1
    ∧ calls = notify p (selectedRows st1)
    ∧ arrays σ !! selectedRows st1 = None.
Proof.
  intros Hp Hst. read_store Hp Hst d sel.
  unfold handleSelectAll, read, mbind, M_bind, mret, M_ret.
  rewrite HS, Hd.
  destruct (alloc_spec (toggleAll d sel) σ) as (l & σ1 & E & Hfresh & Ha & Hf).
  rewrite E. eexists _, _, _. split; [done|].
  apply alloc_preserved in E as (Hpres & Hl & _).
  split; [done|]. unfold stateIn. simpl. rewrite Hl. done.
Qed.

(** C6. In a store that holds the data and the selection, computing the
    displayed sequence, toggling a row and select-all all run to completion
    and leave every array of the store, the data among them, with the
    elements it had, and every record with the properties it had.  The
    displayed sequence has the elements of the sorted view, and when a sort
    is active it is held by an array that was not in the store: the sort
    writes a copy. *)
Theorem handlers_preserve_data p st row σ
  (p' : Props (list T)) (st' : TableState (list T)) :
  propsIn σ p = Some p' → stateIn σ st = Some st' →
  (∃ l σ', sortedData js_lt p st σ = Some (l, σ')
     ∧ arrays σ' !! l = Some (DataTable.sortedData (fields σ) js_lt p' st')
     ∧ (JS.truthy (sortKey st) = true → is_Some (sortOrder st) →
        arrays σ !! l = None)
     ∧ preserved σ σ' ∧ propsIn σ' p = Some p')
  ∧ (∃ r σ', handleSelectRow p row st σ = Some (r, σ')
     ∧ preserved σ σ' ∧ propsIn σ' p = Some p')
  ∧ (∃ r σ', handleSelectAll p st σ = Some (r, σ')
     ∧ preserved σ σ' ∧ propsIn σ' p = Some p').
Proof.
  intros Hp Hst.
  assert (Hkeep : ∀ σ', preserved σ σ' → propsIn σ' p = Some p').
  { intros σ' [Ha _]. unfold propsIn in *.
    destruct (arrays σ !! data p) as [d|] eqn:Hd; [|done].
    by rewrite (Ha _ _ Hd). }
  split; [|split].
  - destruct (sortedData_spec p st σ p' st' Hp Hst)
      as (l & σ' & E & Hpres & Hl & Hnew).
    exists l, σ'. repeat split; auto; apply Hpres.
  - destruct (handleSelectRow_spec p row st σ p' st' Hp Hst)
      as (st1 & calls & σ' & E & Hpres & _).
    exists (st1, calls), σ'. auto.
  - destruct (handleSelectAll_spec p st σ p' st' Hp Hst)
      as (st1 & calls & σ' & E & Hpres & _).
    exists (st1, calls), σ'. auto.
Qed.

(** Without a sort, the displayed array is the array of the host itself. *)
Lemma sortedData_alias p st σ :
  JS.truthy (sortKey st) = false ∨ sortOrder st = None →
  sortedData js_lt p st σ = Some (data p, σ).
Proof.
  unfold sortedData. intros [Hk| ->].
  - destruct (sortKey st) as [k|]; [|done]. rewrite Hk. simpl.
    by destruct (sortOrder st).
  - by destruct (sortKey st).
Qed.

End Store.

End HeapFacts.

(** ** The input field *)

Module InputFieldFacts.
Import InputField.

Lemma isPassword_password p : type p = Some "password" → isPassword p = true.
Proof. unfold isPassword, typeOf. by intros ->. Qed.

(** The value of the input is the [value] prop, whatever the state. *)
Lemma inputValue_render p s : inputValue (render p s) = value p.
Proof. done. Qed.

(** C8. For a password field the input has type "text" while the password is
    shown and type "password" while it is not; the first click on the
    password button shows it, the second hides it again; and the value of
    the input is the [value] prop in every state. *)
Theorem password_reveal p v :
  type p = Some "password" → value p = Some v →
  (inputType (render p true) = "text"
   ∧ inputValue (render p true) = Some v)
  ∧ (inputType (render p false) = "password"
     ∧ inputValue (render p false) = Some v)
  ∧ (let s1 := clickPasswordButton p initial in
     let s2 := clickPasswordButton p s1 in
     s1 = true ∧ s2 = false
     ∧ inputType (render p s1) = "text" ∧ inputValue (render p s1) = Some v
     ∧ inputType (render p s2) = "password" ∧ inputValue (render p s2) = Some v)
  ∧ (∀ s, inputValue (render p s) = Some v).
Proof.
  intros Ht Hv. pose proof (isPassword_password p Ht) as Hp.
  unfold clickPasswordButton, initial, render, typeOf. simpl.
  rewrite Hp, Ht, Hv. simpl. done.
Qed.

Lemma truthy_cases (o : option string) :
  JS.truthy o = false ↔ o = None ∨ o = Some "".
Proof.
  destruct o as [s|]; simpl; [|by split; [left|]].
  rewrite negb_false_iff, String.eqb_eq. split.
  - intros ->. by right.
  - by intros [|[= ->]].
Qed.

(** C9, for messages that are not empty.  With [invalid] and an error
    message that is not the empty string, the error message is shown;
    otherwise, with a helper text that is not the empty string, the helper
    text is shown; otherwise nothing is shown.  The input is disabled when
    [loading] is set, whatever [disabled] is. *)
Theorem message_precedence p s :
  (∀ e, invalid p = true → errorMessage p = Some e → e ≠ "" →
     message (render p s) = Some (ErrorParagraph e))
  ∧ (∀ h, invalid p = false ∨ errorMessage p = None ∨ errorMessage p = Some "" →
     helperText p = Some h → h ≠ "" →
     message (render p s) = Some (HelperParagraph h))
  ∧ (invalid p = false ∨ errorMessage p = None ∨ errorMessage p = Some "" →
     helperText p = None ∨ helperText p = Some "" →
     message (render p s) = None)
  ∧ (loading p = true → inputDisabled (render p s) = true)
  ∧ inputDisabled (render p s) = disabled p || loading p.
Proof.
  assert (Herr : invalid p = false ∨ errorMessage p = None ∨ errorMessage p = Some "" →
                 invalid p && JS.truthy (errorMessage p) = false).
  { intros [->|He]; [done|]. apply truthy_cases in He. rewrite He. apply andb_false_r. }
  simpl. split; [|split; [|split; [|split]]].
  - intros e -> -> He. by rewrite (proj2 (JSFacts.truthy_Some e) He).
  - intros h He -> Hh. by rewrite (Herr He), (proj2 (JSFacts.truthy_Some h) Hh).
  - intros He Hh. apply truthy_cases in Hh. by rewrite (Herr He), Hh.
  - intros ->. apply orb_true_r.
  - done.
Qed.

(** C9 does not hold for an empty message.  An invalid field with the empty
    string as its error message and a helper text shows the helper text: the error message is supplied, and it is not
    what is shown. *)
Lemma empty_error_message_shows_helper :
  let p := {| type := None; value := Some "x"; label := None;
              placeholder := None; helperText := Some "Required";
              errorMessage := Some ""; disabled := false; invalid := true;
              loading := false; onClear := false |} in
  invalid p = true
  ∧ errorMessage p = Some ""
  ∧ message (render p initial) = Some (HelperParagraph "Required")
  ∧ message (render p initial) ≠ Some (ErrorParagraph "").
Proof. repeat split. discriminate. Qed.

End InputFieldFacts.

(** C8, on the scenario of a password field with the value "secret". *)
Lemma password_reveal_witness :
  let p := {| InputField.type := Some "password";
              InputField.value := Some "secret";
              InputField.label := None; InputField.placeholder := None;
              InputField.helperText := None; InputField.errorMessage := None;
              InputField.disabled := false; InputField.invalid := false;
              InputField.loading := false; InputField.onClear := false |} in
  (InputField.type p = Some "password" ∧ InputField.value p = Some "secret")
  ∧ ∀ s, InputField.inputValue (InputField.render p s) = Some "secret".
Proof.
  split; [split; reflexivity|].
  eapply InputFieldFacts.password_reveal; reflexivity.
Defined.

(** ** Scenarios on the sample table *)

Module Scenarios.
Import DataTable Sample.

(** Two records sorted by a column, ascending, then the same header clicked
    again. *)
Example sort_then_click_again :
  let p := props [row 1 66; row 2 65] in
  let st1 := clickHeader (column "age") initial in
  let st2 := clickHeader (column "age") st1 in
  sortedData get lt p st1 = [row 2 65; row 1 66]
  ∧ sortedData get lt p st2 = [row 1 66; row 2 65].
Proof. split; reflexivity. Qed.

(** C3 does not hold for a selection left over from former data.  The host
    replaces the data while a record of the former data is selected: the selection has as many records as the data and selects none
    of them, and select-all clears it. *)
Lemma select_all_clears_stale_selection :
  let st := (handleSelectAll (props [row 2 20]) initial).1 in
  let p := props [row 1 10] in
  selectedRows st = [row 2 20]
  ∧ ¬ selectsAll get (rowKey p) (data p) (selectedRows st)
  ∧ selectedRows (handleSelectAll p st).1 = []
  ∧ selectedRows (handleSelectAll p st).1 ≠ data p.
Proof.
  split; [reflexivity|]. split; [|split; [reflexivity|discriminate]].
  intros Hall. specialize (Hall (row 1 10)). simpl in Hall.
  assert (Hin : row 1 10 ∈ [row 1 10]) by (by left).
  apply Hall, Exists_cons in Hin as [Hk|Hn]; [discriminate Hk|].
  by apply Exists_nil in Hn.
Qed.

(** Select-all, then the toggle of a record that has the key of the second
    row without being that row. *)
Example select_all_then_toggle_copy :
  let p := props [row 1 10; row 2 20; row 3 30] in
  let st1 := (handleSelectAll p initial).1 in
  handleSelectRow get p (row 2 99) st1
  = (state None None [row 1 10; row 3 30], [[row 1 10; row 3 30]]).
Proof. reflexivity. Qed.

(** Sorting a copy leaves the array of the host as it was; sorting the array
    of the host itself would reorder it. *)
Example sortedData_copy :
  ∃ l σ', DataTableHeap.sortedData lt sampleProps sampleState sampleStore = Some (l, σ')
          ∧ l ≠ data sampleProps
          ∧ DataTableHeap.arrays σ' !! l = Some [row 2 10; row 3 20; row 1 30]
          ∧ DataTableHeap.arrays σ' !! data sampleProps
            = Some [row 1 30; row 2 10; row 3 20].
Proof. eexists _, _. split; [reflexivity|]. by vm_compute. Qed.

Example sortedDataNoCopy_mutates :
  ∃ σ', DataTableHeap.sortedDataNoCopy lt sampleProps sampleState sampleStore
        = Some (data sampleProps, σ')
        ∧ DataTableHeap.arrays σ' !! data sampleProps
          = Some [row 2 10; row 3 20; row 1 30].
Proof. eexists. split; [reflexivity|]. by vm_compute. Qed.

End Scenarios.

(** C5, on the sample table: all three rows are selected and a record with
    the key of the second one is toggled. *)
Lemma select_all_then_toggle_witness :
  let p := Sample.props [Sample.row 1 10; Sample.row 2 20; Sample.row 3 30] in
  let st := @DataTable.initial Sample.Row in
  (DataTable.data p ≠ []
   ∧ NoDup ((λ r, Sample.get r (DataTable.rowKey p)) <$> DataTable.data p)
   ∧ length (DataTable.selectedRows st) ≠ length (DataTable.data p)
   ∧ Exists (DataTable.sameKey Sample.get (DataTable.rowKey p) (Sample.row 2 99))
       (DataTable.data p))
  ∧ length (DataTable.selectedRows
              (DataTable.handleSelectRow Sample.get p (Sample.row 2 99)
                 (DataTable.handleSelectAll p st).1).1) = 2.
Proof.
  assert (Hnd : NoDup [1%Z; 2%Z; 3%Z]).
  { apply (bool_decide_unpack _). by vm_compute. }
  assert (Hex : Exists (DataTable.sameKey Sample.get "id" (Sample.row 2 99))
                  [Sample.row 1 10; Sample.row 2 20; Sample.row 3 30]).
  { right. left. reflexivity. }
  split; [split; [discriminate|split; [exact Hnd|split; [discriminate|exact Hex]]]|].
  apply (SelectionFacts.select_all_then_toggle Sample.get
           (Sample.props [Sample.row 1 10; Sample.row 2 20; Sample.row 3 30])
           (Sample.row 2 99) DataTable.initial);
    [discriminate|exact Hnd|discriminate|exact Hex].
Defined.

(** C10, on the sample table: the first row is selected and the second row
    is toggled twice. *)
Lemma handleSelectRow_involution_witness :
  let p := Sample.props [Sample.row 1 10; Sample.row 2 20] in
  let st := Sample.state None None [Sample.row 1 10] in
  (JS.isNaN (Sample.get (Sample.row 2 20) (DataTable.rowKey p)) = false
   ∧ Forall (λ r, ¬ DataTable.sameKey Sample.get (DataTable.rowKey p)
                      (Sample.row 2 20) r)
       (DataTable.selectedRows st))
  ∧ DataTable.selectedRows
      (DataTable.handleSelectRow Sample.get p (Sample.row 2 20)
         (DataTable.handleSelectRow Sample.get p (Sample.row 2 20) st).1).1
    = DataTable.selectedRows st.
Proof.
  assert (Hf : Forall (λ r, ¬ DataTable.sameKey Sample.get "id" (Sample.row 2 20) r)
                 [Sample.row 1 10]).
  { repeat constructor. intros Hk. discriminate Hk. }
  split; [split; [reflexivity|exact Hf]|].
  exact (proj1 (SelectionFacts.handleSelectRow_involution Sample.get
                  (Sample.props [Sample.row 1 10; Sample.row 2 20])
                  (Sample.row 2 20)
                  (Sample.state None None [Sample.row 1 10]))
               eq_refl Hf).
Defined.

(** C7, on the sample table without data and with a record of former data
    still selected: three activations of select-all. *)
Lemma select_all_without_data_witness :
  let p := Sample.props [] in
  let st := Sample.state None None [Sample.row 1 10] in
  DataTable.data p = []
  ∧ Forall (λ c, c = []) (DataTable.selectAllTimes 3 p st).2.
Proof.
  split; [reflexivity|].
  apply (SelectionFacts.select_all_without_data (Sample.props [])
           (Sample.state None None [Sample.row 1 10]) 3).
  reflexivity.
Defined.

(** C6, on the sample store. *)
Lemma handlers_preserve_data_witness :
  let p' := Sample.props [Sample.row 1 30; Sample.row 2 10; Sample.row 3 20] in
  let st' := Sample.state (Some "age") (Some DataTable.asc) [] in
  (DataTableHeap.propsIn Sample.sampleStore Sample.sampleProps = Some p'
   ∧ DataTableHeap.stateIn Sample.sampleStore Sample.sampleState = Some st')
  ∧ ∃ r σ', DataTableHeap.handleSelectAll Sample.sampleProps
              Sample.sampleState Sample.sampleStore = Some (r, σ')
            ∧ DataTableHeap.preserved Sample.sampleStore σ'
            ∧ DataTableHeap.propsIn σ' Sample.sampleProps = Some p'.
Proof.
  split; [split; reflexivity|].
  refine (proj2 (proj2 (HeapFacts.handlers_preserve_data Sample.lt
            Sample.sampleProps Sample.sampleState (Sample.row 1 30)
            Sample.sampleStore _ _ _ _))); reflexivity.
Defined.

(** * Part III: the rest of the components *)

(** ** What the table renders, and the events it offers *)

Module TableView.
Import DataTable.

(** A cell of the header row: the select-all checkbox, the button of a
    sortable column with its chevron, or the bare title. *)
Inductive HeaderCell :=
  | SelectAllCell (checked indeterminate : bool)
  | SortableHeader (title : string) (icon : Chevron)
  | PlainHeader (title : string).

(** The content of a data cell: the node of the column's [render], or the
    text [String(value)]. *)
Inductive Cell (Node : Type) :=
  | NodeCell (n : Node)
  | TextCell (s : string).
Arguments NodeCell {Node}.
Arguments TextCell {Node}.

(** A row of the body: its React key, whether it is highlighted, its
    checkbox (index in the id, checked) when the table is selectable, and
    its data cells. *)
Record Row (Node : Type) := {
  reactKey : string;
  highlighted : bool;
  rowCheckbox : option (nat * bool);
  cells : list (Cell Node)
}.
Arguments reactKey {Node}.
Arguments highlighted {Node}.
Arguments rowCheckbox {Node}.
Arguments cells {Node}.

(** The body element: one placeholder row spanning [colSpan] columns, or the
    rows. *)
Inductive TBody (Node : Type) :=
  | LoadingRow (colSpan : nat)
  | EmptyRow (colSpan : nat)
  | Rows (rows : list (Row Node)).
Arguments LoadingRow {Node}.
Arguments EmptyRow {Node}.
Arguments Rows {Node}.

(** The events of the table: a click on the header of a column, a change of
    the checkbox of a row, a change of the select-all checkbox. *)
Inductive Event (T : Type) :=
  | ClickHeader (col : Column)
  | ToggleRow (row : T)
  | ToggleAll.
Arguments ClickHeader {T}.
Arguments ToggleRow {T}.
Arguments ToggleAll {T}.

Section View.
Context {T Val Node : Type} `{ValEq : JS.JsValue Val}.
Variable get : T → string → Val.
Variable js_lt : Val → Val → bool.
(** [toString v] is [String(v)]; [render col] is the optional [col.render]. *)
Variable toString : Val → string.
Variable render : Column → option (Val → T → Node).

(** [selectedRows.some((r) => r[rowKey] === row[rowKey])] *)
Definition rowChecked (p : Props (list T)) (st : TableState (list T)) (row : T) : bool :=
  bool_decide (Exists (sameKey get (rowKey p) row) (selectedRows st)).

Definition TableHeader (p : Props (list T)) (st : TableState (list T))
  : list HeaderCell :=
  (if selectable p
   then [SelectAllCell (isAllSelected p st) (isIndeterminate p st)]
   else [])
  ++ ((λ col, if sortable col
              then SortableHeader (title col) (headerChevron col st)
              else PlainHeader (title col)) <$> columns p).

(** [col.render ? col.render(row[col.dataIndex], row)
               : String(row[col.dataIndex])] *)
Definition renderCell (col : Column) (row : T) : Cell Node :=
  match render col with
  | Some f => NodeCell (f (get row (dataIndex col)) row)
  | None => TextCell (toString (get row (dataIndex col)))
  end.

(** [sortedData.map((row, index) => ...)] *)
Definition TableBodyRows (p : Props (list T)) (st : TableState (list T))
  : list (Row Node) :=
  imap (λ index row,
          {| reactKey := toString (get row (rowKey p));
             highlighted := rowChecked p st row;
             rowCheckbox :=
               if selectable p then Some (index, rowChecked p st row) else None;
             cells := (λ col, renderCell col row) <$> columns p |})
       (sortedData get js_lt p st).

(** [columns.length + (selectable ? 1 : 0)] *)
Definition colSpan (p : Props (list T)) : nat :=
  length (columns p) + (if selectable p then 1 else 0).

Definition tableBody (p : Props (list T)) (st : TableState (list T)) : TBody Node :=
  match renderBody p with
  | LoadingState => LoadingRow (colSpan p)
  | TableBody => Rows (TableBodyRows p st)
  | EmptyState => EmptyRow (colSpan p)
  end.

(** The number of cells of a row of the body. *)
Definition rowWidth (r : Row Node) : nat :=
  match rowCheckbox r with Some _ => 1 | None => 0 end + length (cells r).

(** The handler an event runs, with the payloads passed to the callback. *)
Definition step (p : Props (list T)) (e : Event T) (st : TableState (list T))
  : TableState (list T) * list (list T) :=
  match e with
  | ClickHeader col => (clickHeader col st, [])
  | ToggleRow row => handleSelectRow get p row st
  | ToggleAll => handleSelectAll p st
  end.

Fixpoint run (p : Props (list T)) (evs : list (Event T)) (st : TableState (list T))
  : TableState (list T) * list (list T) :=
  match evs with
  | [] => (st, [])
  | e :: evs' =>
      let r := step p e st in
      let r' := run p evs' r.1 in
      (r'.1, r.2 ++ r'.2)
  end.

(** The events the rendered table offers: a header is a button only for a
    sortable column of the table, the checkboxes exist only in a selectable
    table, and the rows are those of the data, rendered when the body is the
    rows. *)
Definition offered (p : Props (list T)) (e : Event T) : Prop :=
  match e with
  | ClickHeader col => col ∈ columns p ∧ sortable col = true
  | ToggleRow row => selectable p = true ∧ renderBody p = TableBody ∧ row ∈ data p
  | ToggleAll => selectable p = true
  end.

(** Either nothing is set, or the sort column is the accessor of a sortable
    column of the table and a direction is set. *)
Definition sortStateOk (p : Props (list T)) (st : TableState (list T)) : Prop :=
  (sortKey st = None ∧ sortOrder st = None)
  ∨ ∃ col o, col ∈ columns p ∧ sortable col = true
             ∧ sortKey st = Some (dataIndex col) ∧ sortOrder st = Some o.

(** What the host keeps when its callback stores every payload it receives,
    as [onRowSelect={(rows) => setSelectedUsers(rows)}] does. *)
Definition received (h : list T) (calls : list (list T)) : list T :=
  foldl (λ _ rows, rows) h calls.



End View.

End TableView.

(** ** The rest of the input field *)

Module InputFieldView.
Import InputField.

Inductive Icon := Eye | EyeOff.

(** The buttons of the trailing icon slot. *)
Inductive TrailingButton :=
  | ClearInput
  | PasswordToggle (ariaLabel : string) (icon : Icon).

(** [hasLeftIcon: loading] and [hasRightIcon: isPassword || hasClearButton],
    the variants that pad the input. *)
Definition hasLeftIcon (p : Props) : bool := loading p.

Definition hasRightIcon (p : Props) : bool := isPassword p || hasClearButton p.

(** [aria-label={showPassword ? "Hide password" : "Show password"}] and
    [showPassword ? <EyeOff/> : <Eye/>] *)
Definition passwordToggle (showPassword : bool) : TrailingButton :=
  PasswordToggle (if showPassword then "Hide password" else "Show password")
                 (if showPassword then EyeOff else Eye).

(** The content of the right icon wrapper, rendered when
    [isPassword || hasClearButton]. *)
Definition trailingButtons (p : Props) (showPassword : bool) : list TrailingButton :=
  if isPassword p || hasClearButton p then
    (if hasClearButton p then [ClearInput] else [])
    ++ (if isPassword p then [passwordToggle showPassword] else [])
  else [].

End InputFieldView.

(** ** The demonstration page *)

Module App.
Import DataTable.

(** The values of the attributes of a user: numbers, strings, and
    [undefined] for a name that is not an attribute. *)
Inductive JsVal :=
  | JNum (n : Z)
  | JStr (s : string)
  | JUndefined.

#[global] Instance JsVal_eq_dec : EqDecision JsVal.
Proof. solve_decision. Defined.

(** The numbers of the page are the integers of the user records: no
    attribute is NaN. *)
#[global] Instance JsVal_value : JS.JsValue JsVal :=
  {| JS.JsValue_eq_dec := JsVal_eq_dec; JS.isNaN := λ _, false |}.

(** [interface User] *)
Record User := {
  id : Z;
  name : string;
  email : string;
  role : string;
  status : string
}.

#[global] Instance User_eq_dec : EqDecision User.
Proof. solve_decision. Defined.

(** [u[k]] *)
Definition getUser (u : User) (k : string) : JsVal :=
  if decide (k = "id") then JNum (id u)
  else if decide (k = "name") then JStr (name u)
  else if decide (k = "email") then JStr (email u)
  else if decide (k = "role") then JStr (role u)
  else if decide (k = "status") then JStr (status u)
  else JUndefined.

Definition userData : list User :=
  [ {| id := 1; name := "Jane Cooper"; email := "jane.cooper@example.com";
       role := "Admin"; status := "Active" |};
    {| id := 2; name := "Cody Fisher"; email := "cody.fisher@example.com";
       role := "Member"; status := "Active" |};
    {| id := 3; name := "Esther Howard"; email := "esther.howard@example.com";
       role := "Member"; status := "Inactive" |};
    {| id := 4; name := "Jenny Wilson"; email := "jenny.wilson@example.com";
       role := "Guest"; status := "Active" |};
    {| id := 5; name := "Kristin Watson"; email := "kristin.watson@example.com";
       role := "Member"; status := "Active" |};
    {| id := 6; name := "Cameron Williamson";
       email := "cameron.williamson@example.com";
       role := "Admin"; status := "Inactive" |} ].

Definition userColumns : list Column :=
  [ {| key := "name"; title := "Name"; dataIndex := "name"; sortable := true |};
    {| key := "email"; title := "Email"; dataIndex := "email"; sortable := true |};
    {| key := "role"; title := "Role"; dataIndex := "role"; sortable := true |};
    {| key := "status"; title := "Status"; dataIndex := "status"; sortable := true |} ].

(** The state of the page: its [useState] cells, the [dark] class of the
    document element, whether the timer of the effect is still to fire, and
    the state of the table it renders. *)
Record AppState := {
  theme : string;
  darkClass : bool;
  inputValues : gmap string string;
  tableData : list User;
  loadingTable : bool;
  timerPending : bool;
  selectedUsers : list User;
  table : TableState (list User)
}.

(** The state after the first render and its effect; [dark] is whether the
    document element carries the class [dark] by then. *)
Definition initial (dark : bool) : AppState :=
  {| theme := "light";
     darkClass := dark;
     inputValues :=
       {[ "name" := "John Doe"; "email" := "invalid-email";
          "password" := "password123"; "bio" := "" ]};
     tableData := [];
     loadingTable := true;
     timerPending := true;
     selectedUsers := [];
     table := DataTable.initial |}.

(** The props of the [DataTable] element. *)
Definition tableProps (s : AppState) : Props (list User) :=
  {| data := tableData s; columns := userColumns; loading := loadingTable s;
     selectable := true; onRowSelect := true; rowKey := "id" |}.

(** The props of the field "With Clear Button". *)
Definition nameField (s : AppState) : InputField.Props :=
  {| InputField.type := None;
     InputField.value := inputValues s !! "name";
     InputField.label := Some "With Clear Button";
     InputField.placeholder := None;
     InputField.helperText := None;
     InputField.errorMessage := None;
     InputField.disabled := false;
     InputField.invalid := false;
     InputField.loading := false;
     InputField.onClear := true |}.

(** [selectedUsers.length > 0 && ... selectedUsers.map(u => u.name).join(', ')] *)
Definition selectedBanner (s : AppState) : option string :=
  if bool_decide (0 < length (selectedUsers s))
  then Some (String.concat ", " (name <$> selectedUsers s))
  else None.

(** The label of the theme button. *)
Definition themeButton (s : AppState) : string :=
  "Toggle " +:+ (if decide (theme s = "light") then "Dark" else "Light") +:+ " Mode".

Inductive AppEvent :=
  | ToggleTheme
  | InputChange (field value : string)
  | ClearName
  | TimerFired
  | SimulateEmpty
  | TableEvent (e : TableView.Event User).

(** [toggleTheme] *)
Definition toggleTheme (s : AppState) : AppState :=
  let newTheme := if decide (theme s = "light") then "dark" else "light" in
  {| theme := newTheme;
     darkClass := bool_decide (newTheme = "dark");
     inputValues := inputValues s; tableData := tableData s;
     loadingTable := loadingTable s; timerPending := timerPending s;
     selectedUsers := selectedUsers s; table := table s |}.

(** [setInputValues(prev => ({ ...prev, [name]: value }))] *)
Definition setInputValue (field value : string) (s : AppState) : AppState :=
  {| theme := theme s; darkClass := darkClass s;
     inputValues := <[field := value]> (inputValues s);
     tableData := tableData s; loadingTable := loadingTable s;
     timerPending := timerPending s; selectedUsers := selectedUsers s;
     table := table s |}.

(** The callback of the timer, which fires once. *)
Definition timerFired (s : AppState) : AppState :=
  if timerPending s then
    {| theme := theme s; darkClass := darkClass s; inputValues := inputValues s;
       tableData := userData; loadingTable := false; timerPending := false;
       selectedUsers := selectedUsers s; table := table s |}
  else s.

(** [onClick={() => setTableData([])}] *)
Definition simulateEmpty (s : AppState) : AppState :=
  {| theme := theme s; darkClass := darkClass s; inputValues := inputValues s;
     tableData := []; loadingTable := loadingTable s;
     timerPending := timerPending s; selectedUsers := selectedUsers s;
     table := table s |}.

(** An event of the table: the table runs its handler, and the host stores
    every payload of [onRowSelect]. *)
Definition tableEvent (e : TableView.Event User) (s : AppState) : AppState :=
  let r := TableView.step getUser (tableProps s) e (table s) in
  {| theme := theme s; darkClass := darkClass s; inputValues := inputValues s;
     tableData := tableData s; loadingTable := loadingTable s;
     timerPending := timerPending s;
     selectedUsers := TableView.received (selectedUsers s) r.2;
     table := r.1 |}.

Definition appStep (e : AppEvent) (s : AppState) : AppState :=
  match e with
  | ToggleTheme => toggleTheme s
  | InputChange field value => setInputValue field value s
  | ClearName => setInputValue "name" "" s
  | TimerFired => timerFired s
  | SimulateEmpty => simulateEmpty s
  | TableEvent e => tableEvent e s
  end.

Definition appRun (evs : list AppEvent) (s : AppState) : AppState :=
  foldl (λ s e, appStep e s) s evs.

(** *** Vocabulary of the properties *)

Definition isToggleTheme (e : AppEvent) : bool :=
  match e with ToggleTheme => true | _ => false end.

Definition isTimerFired (e : AppEvent) : bool :=
  match e with TimerFired => true | _ => false end.

Definition isSimulateEmpty (e : AppEvent) : bool :=
  match e with SimulateEmpty => true | _ => false end.

(** The events after the first firing of the timer, if it fired. *)
Fixpoint sinceTimer (evs : list AppEvent) : option (list AppEvent) :=
  match evs with
  | [] => None
  | e :: evs' => if isTimerFired e then Some evs' else sinceTimer evs'
  end.

(** The names of the fields of the form. *)
Definition formFields : list string := ["name"; "email"; "password"; "bio"].

End App.

(** * Part IV: properties of the rest *)

(** ** More on the displayed sequence *)

Module SortMoreFacts.
Import JS DataTable JSFacts SortedDataFacts TableView.

Section Insertion.
Context {A : Type} (cmp : A → A → Z).

(** A sorted array is left as it is. *)
Lemma Array_sort_fixed l :
  StronglySorted (keeps cmp) l → Array_sort cmp l = l.
Proof.
  induction 1 as [|x l Hs IH Hx]; [done|]. simpl. rewrite IH.
  destruct l as [|y l]; [done|]. simpl.
  apply Forall_cons in Hx as [Hxy _]. unfold keeps in Hxy.
  destruct (0 <? cmp x y)%Z eqn:E; [|done]. apply Z.ltb_lt in E. lia.
Qed.





End Insertion.

Section View.
Context {T Val : Type}.
Variable get : T → string → Val.
Variable js_lt : Val → Val → bool.
Implicit Types (p : Props (list T)) (st : TableState (list T)).
Implicit Types (k : string) (o : SortOrder) (a b : T).

#[local] Abbreviation cmp := (compareRows get js_lt).

Section Consistent.
Hypothesis lt_swo : StrictWeakOrder js_lt.








(** Data that is already in the order of the active column and direction is
    displayed as it is. *)
Lemma sortedData_of_sorted p st k o :
  sortKey st = Some k → sortOrder st = Some o →
  StronglySorted (inOrder get js_lt k o) (data p) →
  sortedData get js_lt p st = data p.
Proof using lt_swo.
  intros Hk Ho Hs. unfold sortedData. rewrite Hk, Ho.
  destruct (negb (truthy (Some k))); [done|].
  apply Array_sort_fixed. apply (StronglySorted_mono (inOrder get js_lt k o)); [|done].
  intros a b. by apply keeps_inOrder.
Qed.


End Consistent.

(** The rows are those of the data in every sort state. *)
Lemma sortedData_Permutation p st : sortedData get js_lt p st ≡ₚ data p.
Proof.
  unfold sortedData. destruct (sortKey st) as [k|]; [|done].
  destruct (sortOrder st) as [o|]; [|done].
  destruct (negb (truthy (Some k))); [done|]. apply Array_sort_Permutation.
Qed.

End View.

End SortMoreFacts.

(** ** Runs of table events *)

Module TableRunFacts.
Import DataTable TableView.

Section Runs.
Context {T Val : Type} `{ValEq : JS.JsValue Val}.
Variable get : T → string → Val.
Implicit Types (p : Props (list T)) (st : TableState (list T)).
Implicit Types (e : Event T) (evs : list (Event T)) (row r : T).

(** A property that every offered event preserves holds after every run of
    offered events. *)
Lemma run_invariant (I : TableState (list T) → Prop) p :
  (∀ e st, offered p e → I st → I (step get p e st).1) →
  ∀ evs st, Forall (offered p) evs → I st → I (run get p evs st).1.
Proof.
  intros Hstep evs. induction evs as [|e evs IH]; intros st Hoff Hst; [done|].
  apply Forall_cons in Hoff as [He Hoff]. simpl. apply IH; [done|].
  by apply Hstep.
Qed.

Lemma step_selection_sort e p st :
  (∀ col, e ≠ ClickHeader col) →
  sortKey (step get p e st).1 = sortKey st
  ∧ sortOrder (step get p e st).1 = sortOrder st.
Proof. destruct e; [intros H; by destruct (H col)|done..]. Qed.

(** *** The sort state *)

Lemma step_sortStateOk p e st :
  offered p e → sortStateOk p st → sortStateOk p (step get p e st).1.
Proof.
  destruct e as [col|row|]; simpl; [|done..].
  intros [Hin Hs] _. right. unfold clickHeader, handleSort. rewrite Hs.
  case_decide as Hk; simpl.
  - exists col. eexists. by rewrite Hk.
  - by exists col, asc.
Qed.

(** X4. From the initial state, after any events the table offers: the sort
    column is set exactly when the direction is; the sort column is the
    accessor of a sortable column of the table; and the chevron of a header
    tells the sort state, up for its column ascending, down for its column
    descending, muted for any other column. *)
Theorem sort_state_reachable p evs :
  Forall (offered p) evs →
  let st := (run get p evs initial).1 in
  (sortKey st = None ↔ sortOrder st = None)
  ∧ (∀ k, sortKey st = Some k →
       ∃ col, col ∈ columns p ∧ sortable col = true ∧ dataIndex col = k)
  ∧ (∀ col, headerChevron col st = ChevronUp ↔
       sortKey st = Some (dataIndex col) ∧ sortOrder st = Some asc)
  ∧ (∀ col, headerChevron col st = ChevronDown ↔
       sortKey st = Some (dataIndex col) ∧ sortOrder st = Some desc)
  ∧ (∀ col, headerChevron col st = ChevronDownMuted ↔
       sortKey st ≠ Some (dataIndex col)).
Proof.
  intros Hoff.
  assert (Hok : sortStateOk p (run get p evs initial).1).
  { apply run_invariant; [apply step_sortStateOk|done|by left]. }
  simpl. set (st := (run get p evs initial).1) in *. clearbody st.
  unfold headerChevron.
  destruct Hok as [[Hk Ho]|(c & o & Hin & Hs & Hk & Ho)]; rewrite Hk, Ho.
  - split; [done|]. split; [done|]. repeat split; try done; by intros [].
  - split; [split; discriminate|]. split; [intros k [= <-]; by exists c|].
    repeat split; intros;
      destruct (decide (Some (dataIndex c) = Some (dataIndex col)));
      destruct o; simpl in *; intuition congruence.
Qed.

(** X5. Two clicks on the header of the sort column give the state back. *)
Theorem two_clicks_restore col o st :
  sortable col = true →
  sortKey st = Some (dataIndex col) → sortOrder st = Some o →
  clickHeader col (clickHeader col st) = st.
Proof.
  intros Hs Hk Ho. unfold clickHeader. rewrite Hs.
  destruct st as [k' o' sel]. simpl in *. subst.
  unfold handleSort. simpl.
  destruct (decide (Some (dataIndex col) = Some (dataIndex col))); [|done].
  simpl.
  destruct (decide (Some (dataIndex col) = Some (dataIndex col))); [|done].
  by destruct o.
Qed.

(** *** The checkboxes *)

Lemma rowChecked_true p st row :
  rowChecked get p st row = true ↔ Exists (sameKey get (rowKey p) row) (selectedRows st).
Proof. apply bool_decide_eq_true. Qed.

Lemma rowChecked_sameKey p st row r :
  sameKey get (rowKey p) row r →
  rowChecked get p st r = rowChecked get p st row.
Proof.
  intros Hr. unfold rowChecked. apply bool_decide_ext.
  rewrite !Exists_exists.
  split; intros (x & Hx & Hk); exists x; (split; [done|]).
  - exact (SelectionFacts.sameKey_trans _ _ _ _ _ Hr Hk).
  - apply SelectionFacts.sameKey_sym in Hr.
    exact (SelectionFacts.sameKey_trans _ _ _ _ _ Hr Hk).
Qed.

Lemma rowChecked_toggled p st row :
  sameKey get (rowKey p) row row →
  rowChecked get p (handleSelectRow get p row st).1 row
  = negb (rowChecked get p st row).
Proof.
  intros Hrow. unfold rowChecked. simpl. unfold toggleRow.
  destruct (bool_decide (Exists (sameKey get (rowKey p) row) (selectedRows st)));
    simpl.
  - apply bool_decide_eq_false. rewrite Exists_exists.
    intros (x & Hx & Hk). by apply list_elem_of_filter in Hx as [Hn _].
  - apply bool_decide_eq_true, Exists_app. right. by left.
Qed.

(** A row whose key is NaN is never shown checked. *)
Lemma rowChecked_NaN p st row :
  JS.isNaN (get row (rowKey p)) = true → rowChecked get p st row = false.
Proof.
  intros Hnan. apply bool_decide_eq_false. rewrite Exists_exists.
  intros (x & _ & Hk).
  apply SelectionFacts.sameKey_self, SelectionFacts.sameKey_refl in Hk.
  congruence.
Qed.

(** X6. A change of the checkbox of a row flips the checkbox of every row
    whose key is strictly equal to the key of that row, which includes the
    row itself unless its key is NaN, and leaves the checkbox of every other
    row as it was.  The checkbox of a row whose key is NaN is never checked:
    a change of it adds the row to the selection, and the checkbox stays
    unchecked. *)
Theorem toggle_flips_one_checkbox p st row :
  (∀ r, sameKey get (rowKey p) row r →
     rowChecked get p (handleSelectRow get p row st).1 r
     = negb (rowChecked get p st r))
  ∧ (∀ r, ¬ sameKey get (rowKey p) row r →
     rowChecked get p (handleSelectRow get p row st).1 r
     = rowChecked get p st r)
  ∧ (JS.isNaN (get row (rowKey p)) = false →
     rowChecked get p (handleSelectRow get p row st).1 row
     = negb (rowChecked get p st row))
  ∧ (JS.isNaN (get row (rowKey p)) = true →
     rowChecked get p st row = false
     ∧ rowChecked get p (handleSelectRow get p row st).1 row = false
     ∧ selectedRows (handleSelectRow get p row st).1 = selectedRows st ++ [row]).
Proof.
  split; [|split; [|split]].
  - intros r Hr. rewrite !(rowChecked_sameKey _ _ row r Hr).
    apply rowChecked_toggled. by apply SelectionFacts.sameKey_self in Hr.
  - intros r Hr. unfold rowChecked. simpl. unfold toggleRow.
    destruct (bool_decide (Exists (sameKey get (rowKey p) row) (selectedRows st)));
      apply bool_decide_ext.
    + rewrite !Exists_exists. split.
      * intros (x & Hx & Hk). apply list_elem_of_filter in Hx as [_ Hx]. eauto.
      * intros (x & Hx & Hk). exists x. split; [|done].
        apply list_elem_of_filter. split; [|done].
        intros Hrx. apply Hr. apply SelectionFacts.sameKey_sym in Hk.
        exact (SelectionFacts.sameKey_trans _ _ _ _ _ Hrx Hk).
    + rewrite Exists_app, Exists_cons, Exists_nil. split; [|by left].
      intros [|[Hk|[]]]; [done|]. destruct Hr.
      by apply SelectionFacts.sameKey_sym.
  - intros Hn. apply rowChecked_toggled. by apply SelectionFacts.sameKey_refl.
  - intros Hn. split; [by apply rowChecked_NaN|].
    split; [by apply rowChecked_NaN|].
    simpl. by apply SelectionFacts.toggleRow_NaN.
Qed.

(** X7. A change of the select-all checkbox flips it when there is data, never
    leaves it indeterminate, and leaves it unchecked when there is no
    data. *)
Theorem select_all_flips_checkbox p st :
  (data p ≠ [] →
     isAllSelected p (handleSelectAll p st).1 = negb (isAllSelected p st))
  ∧ isIndeterminate p (handleSelectAll p st).1 = false
  ∧ (data p = [] → isAllSelected p (handleSelectAll p st).1 = false).
Proof.
  unfold isAllSelected, isIndeterminate. simpl. unfold toggleAll.
  split; [|split].
  - intros Hd. destruct (data p) as [|x d]; [done|].
    repeat case_bool_decide; simpl in *; try done; lia.
  - repeat case_bool_decide; simpl in *; try done; lia.
  - intros ->. simpl. done.
Qed.

(** X8. Sorting and selecting do not interfere: a click on a header leaves the
    selection and calls no callback, a selection event leaves the sort state
    and the displayed sequence, and the two commute. *)
Theorem sort_and_selection_commute (js_lt : Val → Val → bool) p st col e :
  (∀ c, e ≠ ClickHeader c) →
  selectedRows (clickHeader col st) = selectedRows st
  ∧ sortedData get js_lt p (step get p e st).1 = sortedData get js_lt p st
  ∧ step get p e (clickHeader col st)
    = (clickHeader col (step get p e st).1, (step get p e st).2).
Proof.
  intros He. split; [|split].
  - unfold clickHeader, handleSort. destruct (sortable col); [|done].
    by case_decide.
  - destruct e as [c|row|]; [by destruct (He c)|done..].
  - destruct e as [c|row|]; [by destruct (He c)|..];
      unfold clickHeader, handleSort; simpl;
      destruct (sortable col); [|done| |done]; by case_decide.
Qed.

(** *** The callback *)

Lemma run_app p evs1 evs2 st :
  run get p (evs1 ++ evs2) st
  = ((run get p evs2 (run get p evs1 st).1).1,
     (run get p evs1 st).2 ++ (run get p evs2 (run get p evs1 st).1).2).
Proof.
  revert st. induction evs1 as [|e evs1 IH]; intros st; simpl.
  { by destruct (run get p evs2 st). }
  rewrite IH. simpl. by rewrite app_assoc.
Qed.

Lemma step_received p e st :
  onRowSelect p = true →
  received (selectedRows st) (step get p e st).2 = selectedRows (step get p e st).1.
Proof.
  intros Hc. destruct e as [col|row|]; simpl; unfold notify; rewrite ?Hc; try done.
  unfold clickHeader, handleSort. destruct (sortable col); [|done].
  by case_decide.
Qed.

Lemma received_app (h : list T) c1 c2 :
  received (received h c1) c2 = received h (c1 ++ c2).
Proof. unfold received. by rewrite foldl_app. Qed.

(** X9. With a callback, every selection event passes the new selection to it,
    once: a host that stores what it receives holds the selection of the
    table after every run, when it held it before.  Without a callback
    nothing is passed. *)
Theorem host_receives_selection p evs st :
  (onRowSelect p = true →
     received (selectedRows st) (run get p evs st).2
     = selectedRows (run get p evs st).1)
  ∧ (onRowSelect p = false → (run get p evs st).2 = []).
Proof.
  split; intros Hc.
  - revert st. induction evs as [|e evs IH]; intros st; [done|].
    simpl. by rewrite <- received_app, step_received, IH.
  - revert st. induction evs as [|e evs IH]; intros st; [done|].
    simpl. rewrite IH. destruct e; simpl; unfold notify; by rewrite ?Hc.
Qed.

(** *** The selection over data with distinct keys *)

#[local] Abbreviation keysOf p l := ((λ r : T, get r (rowKey p)) <$> l).

Lemma toggleRow_distinct p row sel :
  JS.isNaN (get row (rowKey p)) = false →
  NoDup (keysOf p sel) → NoDup (keysOf p (toggleRow get (rowKey p) row sel)).
Proof.
  intros Hrow Hnd. unfold toggleRow. case_bool_decide as He.
  - apply (sublist_NoDup _ (keysOf p sel)); [done|].
    apply fmap_sublist, sublist_filter.
  - rewrite fmap_app. apply NoDup_app. split; [done|]. split.
    + intros v Hv Hr. apply list_elem_of_singleton in Hr as ->.
      apply He. apply list_elem_of_fmap in Hv as (x & Hx & Hin).
      apply Exists_exists. exists x. split; [done|].
      apply SelectionFacts.sameKey_spec. by rewrite <- Hx.
    + apply NoDup_singleton.
Qed.

Lemma toggleRow_within p row sel :
  row ∈ data p → sel ⊆ data p → toggleRow get (rowKey p) row sel ⊆ data p.
Proof.
  intros Hrow Hsub x. unfold toggleRow. case_bool_decide.
  - intros Hx. apply list_elem_of_filter in Hx as [_ Hx]. by apply Hsub.
  - intros Hx. apply elem_of_app in Hx as [Hx|Hx]; [by apply Hsub|].
    by apply list_elem_of_singleton in Hx as ->.
Qed.

Lemma step_selection_ok p e st :
  NoDup (keysOf p (data p)) →
  Forall (λ r, JS.isNaN (get r (rowKey p)) = false) (data p) → offered p e →
  NoDup (keysOf p (selectedRows st)) ∧ selectedRows st ⊆ data p →
  NoDup (keysOf p (selectedRows (step get p e st).1))
  ∧ selectedRows (step get p e st).1 ⊆ data p.
Proof.
  intros Hd Hnan Hoff [Hnd Hsub]. destruct e as [col|row|]; simpl.
  - unfold clickHeader, handleSort. destruct (sortable col); [|done].
    by case_decide.
  - destruct Hoff as (_ & _ & Hrow).
    split; [|by apply toggleRow_within].
    apply toggleRow_distinct; [|done].
    rewrite Forall_forall in Hnan. by apply Hnan.
  - unfold toggleAll. case_bool_decide; [|done].
    split; [constructor|apply list_subseteq_nil].
Qed.

(** A selection of records with distinct keys, all of them records of data
    with distinct keys none of which is NaN, has as many records as the data
    exactly when every row is checked. *)
Lemma full_selection_length p st :
  NoDup (keysOf p (data p)) →
  Forall (λ r, JS.isNaN (get r (rowKey p)) = false) (data p) →
  NoDup (keysOf p (selectedRows st)) → selectedRows st ⊆ data p →
  (length (selectedRows st) ≤ length (data p))%nat
  ∧ (length (selectedRows st) = length (data p)
     ↔ ∀ r, r ∈ data p → rowChecked get p st r = true).
Proof.
  intros Hd Hnan Hs Hsub. rewrite Forall_forall in Hnan.
  set (f := λ r : T, get r (rowKey p)) in *.
  assert (Hsm : f <$> selectedRows st ⊆+ f <$> data p).
  { apply NoDup_submseteq; [done|]. intros v Hv.
    apply list_elem_of_fmap in Hv as (r & -> & Hr).
    apply list_elem_of_fmap_2. by apply Hsub. }
  pose proof (submseteq_length _ _ Hsm) as Hle. rewrite !length_fmap in Hle.
  split; [done|]. split.
  - intros Hlen r Hr. apply rowChecked_true.
    assert (Hp : f <$> selectedRows st ≡ₚ f <$> data p).
    { apply submseteq_length_Permutation; [done|]. rewrite !length_fmap. lia. }
    assert (Hin : f r ∈ f <$> selectedRows st).
    { rewrite Hp. by apply list_elem_of_fmap_2. }
    apply list_elem_of_fmap in Hin as (r' & E & Hr').
    apply Exists_exists. exists r'. split; [done|].
    apply SelectionFacts.sameKey_spec. change (f r' = f r ∧ JS.isNaN (f r') = false).
    rewrite <- E. split; [done|]. by apply Hnan.
  - intros Hall.
    assert (Hp : f <$> data p ⊆+ f <$> selectedRows st).
    { apply NoDup_submseteq; [done|]. intros v Hv.
      apply list_elem_of_fmap in Hv as (r & -> & Hr).
      apply Hall, rowChecked_true, Exists_exists in Hr as (r' & Hr' & Hk).
      apply SelectionFacts.sameKey_spec in Hk as [Hk _].
      change (f r' = f r) in Hk. rewrite <- Hk.
      by apply list_elem_of_fmap_2. }
    apply submseteq_length in Hp. rewrite !length_fmap in Hp. lia.
Qed.

(** X10. Over data with distinct keys none of which is NaN, from the initial
    state and after any events the table offers: the selection is made of
    records of the data, with distinct keys; the select-all checkbox is
    checked exactly when there is data and every row is checked; and it is
    indeterminate exactly when some row is checked and some row is not. *)
Theorem header_checkbox_reflects_rows p evs :
  NoDup (keysOf p (data p)) →
  Forall (λ r, JS.isNaN (get r (rowKey p)) = false) (data p) →
  Forall (offered p) evs →
  let st := (run get p evs initial).1 in
  NoDup (keysOf p (selectedRows st))
  ∧ selectedRows st ⊆ data p
  ∧ (isAllSelected p st = true ↔
       data p ≠ [] ∧ ∀ r, r ∈ data p → rowChecked get p st r = true)
  ∧ (isIndeterminate p st = true ↔
       (∃ r, r ∈ data p ∧ rowChecked get p st r = true)
       ∧ (∃ r, r ∈ data p ∧ rowChecked get p st r = false)).
Proof.
  intros Hd Hnan Hoff.
  assert (Hok : NoDup (keysOf p (selectedRows (run get p evs initial).1))
                ∧ selectedRows (run get p evs initial).1 ⊆ data p).
  { apply (run_invariant
             (λ st, NoDup (keysOf p (selectedRows st)) ∧ selectedRows st ⊆ data p));
      [|done|].
    - intros e st. by apply step_selection_ok.
    - split; [constructor|apply list_subseteq_nil]. }
  simpl. set (st := (run get p evs initial).1) in *. clearbody st.
  destruct Hok as [Hs Hsub].
  destruct (full_selection_length p st Hd Hnan Hs Hsub) as [Hle Hfull].
  split; [done|]. split; [done|].
  unfold isAllSelected, isIndeterminate.
  rewrite !andb_true_iff, !bool_decide_eq_true. split.
  - rewrite Hfull. split; intros [Hne Hall]; (split; [|done]).
    + intros E. rewrite E in Hne. simpl in Hne. lia.
    + destruct (data p); [done|simpl; lia].
  - split.
    + intros [Hpos Hlt]. split.
      * destruct (selectedRows st) as [|r sel] eqn:E; [simpl in Hpos; lia|].
        assert (Hr : r ∈ data p) by (apply Hsub; by left).
        exists r. split; [done|].
        apply rowChecked_true. rewrite E. left.
        apply SelectionFacts.sameKey_refl.
        rewrite Forall_forall in Hnan. by apply Hnan.
      * assert (Hn : ¬ Forall (λ r, rowChecked get p st r = true) (data p)).
        { intros Hall. rewrite Forall_forall in Hall.
          pose proof (proj2 Hfull Hall). lia. }
        apply not_Forall_Exists in Hn; [|apply _].
        apply Exists_exists in Hn as (r & Hr & Hc).
        exists r. split; [done|]. simpl in Hc. by apply not_true_is_false.
    + intros [(r & Hr & Hc) (r' & Hr' & Hc')]. split.
      * apply rowChecked_true, Exists_exists in Hc as (x & Hx & _).
        destruct (selectedRows st); [by apply elem_of_nil in Hx|simpl; lia].
      * assert (length (selectedRows st) ≠ length (data p)); [|lia].
        intros E. pose proof (proj1 Hfull E r' Hr') as Hc''.
        rewrite Hc'' in Hc'. done.
Qed.

End Runs.

(** The condition on NaN is needed.  Over one record whose key is NaN, a
    change of the checkbox of its row adds the record to the selection: the
    select-all checkbox is checked, and the checkbox of the row is not. *)
Example header_checked_row_unchecked :
  let r := Irregular.row Irregular.NaN (Irregular.Num 30) in
  let p := Irregular.props [r] in
  let st := (run Irregular.get p [ToggleRow r] initial).1 in
  Forall (offered p) [ToggleRow r]
  ∧ selectedRows st = [r]
  ∧ isAllSelected p st = true
  ∧ rowChecked Irregular.get p st r = false.
Proof. split; [|done]. repeat constructor. Qed.

End TableRunFacts.

(** ** The rendered table *)

Module TableViewFacts.
Import DataTable TableView.

Section View.
Context {T Val Node : Type} `{ValEq : JS.JsValue Val}.
Variable get : T → string → Val.
Variable js_lt : Val → Val → bool.
Variable toString : Val → string.
Variable render : Column → option (Val → T → Node).
Implicit Types (p : Props (list T)) (st : TableState (list T)).

Lemma Forall_imap {A B} (P : B → Prop) (f : nat → A → B) (l : list A) :
  (∀ i x, x ∈ l → P (f i x)) → Forall P (imap f l).
Proof.
  revert f. induction l as [|x l IH]; intros f Hf; [constructor|].
  rewrite imap_cons. constructor; [apply Hf; by left|].
  apply IH. intros i y Hy. apply Hf. by right.
Qed.

Lemma fmap_imap {A B C} (g : B → C) (f : nat → A → B) (l : list A) :
  g <$> imap f l = imap (λ i x, g (f i x)) l.
Proof.
  revert f. induction l as [|x l IH]; intros f; [done|].
  rewrite !imap_cons, fmap_cons. f_equal. apply IH.
Qed.

Lemma length_TableHeader p st : length (TableHeader p st) = colSpan p.
Proof.
  unfold TableHeader, colSpan. rewrite length_app, length_fmap.
  destruct (selectable p); simpl; lia.
Qed.

(** X11. The table is rectangular: the header, every row of the body and the
    placeholder of the loading and empty states span the same number of
    columns.  The body has one row for each record of the data, with the
    keys of the data, and when it shows rows there is at least one. *)
Theorem table_is_rectangular p st :
  Forall (λ r, rowWidth r = length (TableHeader p st))
    (TableBodyRows get js_lt toString render p st)
  ∧ length (TableBodyRows get js_lt toString render p st) = length (data p)
  ∧ reactKey <$> TableBodyRows get js_lt toString render p st
    ≡ₚ (λ r, toString (get r (rowKey p))) <$> data p
  ∧ match tableBody get js_lt toString render p st with
    | LoadingRow n | EmptyRow n => n = length (TableHeader p st)
    | Rows rows => rows ≠ []
    end.
Proof.
  rewrite length_TableHeader. split; [|split; [|split]].
  - apply Forall_imap. intros i x _. unfold rowWidth, colSpan. simpl.
    rewrite length_fmap. destruct (selectable p); simpl; lia.
  - unfold TableBodyRows. rewrite length_imap.
    by rewrite (SortMoreFacts.sortedData_Permutation get js_lt p st).
  - unfold TableBodyRows. rewrite fmap_imap. simpl.
    rewrite (imap_const (λ r, toString (get r (rowKey p)))).
    by rewrite (SortMoreFacts.sortedData_Permutation get js_lt p st).
  - unfold tableBody, renderBody. destruct (loading p); [done|].
    case_bool_decide as Hd; [|done].
    intros E. apply (f_equal length) in E. unfold TableBodyRows in E.
    rewrite length_imap in E.
    rewrite (SortMoreFacts.sortedData_Permutation get js_lt p st) in E.
    simpl in E. lia.
Qed.

End View.

End TableViewFacts.

(** ** The arrays of the selection *)

Module HeapMoreFacts.
Import DataTable DataTableHeap HeapFacts.

Section Store.
Context {T Val : Type} `{ValEq : JS.JsValue Val}.
Implicit Types (σ : @store T Val) (p : Props loc) (st : TableState loc).

(** X12. The handlers of the selection put the new selection in an array that was
    not in the store: it is neither the array of the data nor the array of
    the former selection, it holds the selection of the pure handler, and it
    is the array passed to the callback. *)
Theorem selection_array_is_new p st row σ
  (p' : Props (list T)) (st' : TableState (list T)) :
  propsIn σ p = Some p' → stateIn σ st = Some st' →
  (∃ st1 calls σ', handleSelectRow p row st σ = Some ((st1, calls), σ')
     ∧ arrays σ !! selectedRows st1 = None
     ∧ selectedRows st1 ≠ data p ∧ selectedRows st1 ≠ selectedRows st
     ∧ arrays σ' !! selectedRows st1
       = Some (selectedRows (DataTable.handleSelectRow (fields σ) p' row st').1)
     ∧ calls = notify p (selectedRows st1))
  ∧ (∃ st1 calls σ', handleSelectAll p st σ = Some ((st1, calls), σ')
     ∧ arrays σ !! selectedRows st1 = None
     ∧ selectedRows st1 ≠ data p ∧ selectedRows st1 ≠ selectedRows st
     ∧ arrays σ' !! selectedRows st1
       = Some (selectedRows (DataTable.handleSelectAll p' st').1)
     ∧ calls = notify p (selectedRows st1)).
Proof.
  intros Hp Hst.
  assert (Hd : is_Some (arrays σ !! data p)).
  { unfold propsIn in Hp. by destruct (arrays σ !! data p). }
  assert (Hs : is_Some (arrays σ !! selectedRows st)).
  { unfold stateIn in Hst. by destruct (arrays σ !! selectedRows st). }
  assert (Hcontent : ∀ σ' st1 (S1 : TableState (list T)),
            stateIn σ' st1 = Some S1 →
            arrays σ' !! selectedRows st1 = Some (selectedRows S1)).
  { intros σ' st1 S1. unfold stateIn.
    destruct (arrays σ' !! selectedRows st1); [|done]. by intros [= <-]. }
  split.
  - destruct (handleSelectRow_spec p row st σ p' st' Hp Hst)
      as (st1 & calls & σ' & E & _ & Hin & Hc & Hnew).
    exists st1, calls, σ'. repeat split; try done.
    + intros E'. rewrite <- E', Hnew in Hd. by destruct Hd.
    + intros E'. rewrite <- E', Hnew in Hs. by destruct Hs.
    + by apply Hcontent.
  - destruct (handleSelectAll_spec p st σ p' st' Hp Hst)
      as (st1 & calls & σ' & E & _ & Hin & Hc & Hnew).
    exists st1, calls, σ'. repeat split; try done.
    + intros E'. rewrite <- E', Hnew in Hd. by destruct Hd.
    + intros E'. rewrite <- E', Hnew in Hs. by destruct Hs.
    + by apply Hcontent.
Qed.

End Store.

End HeapMoreFacts.

(** ** The buttons of the input field *)

Module InputFieldMoreFacts.
Import InputField InputFieldView.

Lemma hasClearButton_spec p :
  hasClearButton p = true ↔ onClear p = true ∧ ∃ v, value p = Some v ∧ v ≠ "".
Proof.
  unfold hasClearButton. rewrite !andb_true_iff, bool_decide_eq_true. split.
  - intros [[Hc Ht] _]. split; [done|].
    destruct (value p) as [v|]; [|done]. exists v. split; [done|].
    by apply JSFacts.truthy_Some.
  - intros [Hc (v & -> & Hv)]. split; [split; [done|]|].
    + by apply JSFacts.truthy_Some.
    + simpl. destruct v; [done|simpl; lia].
Qed.

Lemma isPassword_typeOf p : isPassword p = true ↔ typeOf p = "password".
Proof. unfold isPassword. apply String.eqb_eq. Qed.

(** X13. The clear button is shown exactly when the host supplied [onClear] and
    the value is a string that is not empty; the password button exactly for
    a password field; the clear button comes first; and the input is padded
    on the right exactly when one of them is shown. *)
Theorem trailing_buttons p s :
  (hasClearButton p = true ↔ onClear p = true ∧ ∃ v, value p = Some v ∧ v ≠ "")
  ∧ (ClearInput ∈ trailingButtons p s ↔ hasClearButton p = true)
  ∧ (passwordToggle s ∈ trailingButtons p s ↔ isPassword p = true)
  ∧ (trailingButtons p s ≠ [] ↔ hasRightIcon p = true)
  ∧ trailingButtons p s
    = (if hasClearButton p then [ClearInput] else [])
      ++ (if isPassword p then [passwordToggle s] else []).
Proof.
  split; [apply hasClearButton_spec|].
  unfold trailingButtons, hasRightIcon, passwordToggle.
  destruct (hasClearButton p), (isPassword p); simpl;
    repeat split; intros; try done;
    repeat match goal with
           | H : _ ∈ [] |- _ => by apply elem_of_nil in H
           | H : _ ∈ _ :: _ |- _ => apply elem_of_cons in H as [H|H]; try done
           | |- _ ∈ _ => by repeat constructor
           end.
Qed.

(** X14. The password button offers to hide the password exactly when the input
    shows it: its label is "Hide password" and its icon the crossed eye when
    the input has type "text", "Show password" and the eye when it has type
    "password". *)
Theorem password_button_matches_input p s l i :
  PasswordToggle l i ∈ trailingButtons p s →
  (l = "Hide password" ↔ inputType (render p s) = "text")
  ∧ (l = "Show password" ↔ inputType (render p s) = "password")
  ∧ (i = EyeOff ↔ inputType (render p s) = "text")
  ∧ (i = Eye ↔ inputType (render p s) = "password").
Proof.
  intros Hin.
  assert (Hp : isPassword p = true ∧ PasswordToggle l i = passwordToggle s).
  { unfold trailingButtons in Hin.
    destruct (isPassword p), (hasClearButton p); simpl in Hin;
      repeat match goal with
             | H : _ ∈ [] |- _ => by apply elem_of_nil in H
             | H : _ ∈ _ :: _ |- _ => apply elem_of_cons in H as [H|H]; try done
             end. }
  destruct Hp as [Hp E]. unfold passwordToggle in E. injection E as -> ->.
  simpl. rewrite Hp. apply isPassword_typeOf in Hp. rewrite Hp.
  destruct s; simpl; repeat split; intros; done.
Qed.

(** X15. Two clicks on the password button give the state back.  Without a
    password field the state shows nowhere: there is no password button, the
    state never changes, and the rendered field and its buttons are the same
    in both states.  For a password field the state shows in the type of the
    input and in the label and the icon of the password button, which differ
    between the two states, and in nothing else: the value, the disabled
    flag, aria-invalid, the spinner, the message, the presence of the clear
    button and of the password button, and the number of buttons are the
    same in both states. *)
Theorem reveal_state_scope p s s' :
  clickPasswordButton p (clickPasswordButton p s) = s
  ∧ (isPassword p = false →
     clickPasswordButton p s = s
     ∧ inputType (render p s) = typeOf p
     ∧ (∀ l i, PasswordToggle l i ∉ trailingButtons p s)
     ∧ render p s = render p s'
     ∧ trailingButtons p s = trailingButtons p s')
  ∧ (isPassword p = true →
     (inputType (render p s) = inputType (render p s') ↔ s = s')
     ∧ (passwordToggle s = passwordToggle s' ↔ s = s')
     ∧ (trailingButtons p s = trailingButtons p s' ↔ s = s')
     ∧ passwordToggle s ∈ trailingButtons p s
     ∧ (s ≠ s' → passwordToggle s' ∉ trailingButtons p s))
  ∧ (inputValue (render p s) = inputValue (render p s')
     ∧ inputDisabled (render p s) = inputDisabled (render p s')
     ∧ ariaInvalid (render p s) = ariaInvalid (render p s')
     ∧ spinner (render p s) = spinner (render p s')
     ∧ clearButton (render p s) = clearButton (render p s')
     ∧ passwordButton (render p s) = passwordButton (render p s')
     ∧ message (render p s) = message (render p s')
     ∧ (ClearInput ∈ trailingButtons p s ↔ ClearInput ∈ trailingButtons p s')
     ∧ length (trailingButtons p s) = length (trailingButtons p s')).
Proof.
  split; [|split; [|split]].
  - unfold clickPasswordButton. simpl. destruct (isPassword p); [|done].
    apply negb_involutive.
  - intros Hp. unfold clickPasswordButton, trailingButtons, render.
    simpl. rewrite Hp. simpl.
    repeat split. intros l i Hin.
    destruct (hasClearButton p); simpl in Hin.
    + apply elem_of_cons in Hin as [Hin|Hin]; [done|by apply elem_of_nil in Hin].
    + by apply elem_of_nil in Hin.
  - intros Hp. unfold trailingButtons, passwordToggle. simpl. rewrite Hp.
    apply isPassword_typeOf in Hp. rewrite Hp. simpl.
    destruct (hasClearButton p), s, s'; simpl;
      repeat split; intros; try done;
      try (intros Hin);
      repeat match goal with
             | H : _ ∈ [] |- _ => by apply elem_of_nil in H
             | H : _ ∈ _ :: _ |- _ => apply elem_of_cons in H as [H|H]; try done
             | |- _ ∈ _ => by repeat constructor
             end.
  - repeat split; try done.
    + unfold trailingButtons.
      destruct (isPassword p), (hasClearButton p); simpl; intros Hin; try done;
        repeat match goal with
               | H : _ ∈ [] |- _ => by apply elem_of_nil in H
               | H : _ ∈ _ :: _ |- _ => apply elem_of_cons in H as [H|H]; try done
               | |- _ ∈ _ => by repeat constructor
               end.
    + unfold trailingButtons.
      destruct (isPassword p), (hasClearButton p); simpl; intros Hin; try done;
        repeat match goal with
               | H : _ ∈ [] |- _ => by apply elem_of_nil in H
               | H : _ ∈ _ :: _ |- _ => apply elem_of_cons in H as [H|H]; try done
               | |- _ ∈ _ => by repeat constructor
               end.
    + unfold trailingButtons.
      by destruct (isPassword p), (hasClearButton p).
Qed.

End InputFieldMoreFacts.

(** X14, on an example. The password field of the demonstration page, with the password shown. *)
Lemma password_button_matches_input_witness :
  let p := {| InputField.type := Some "password";
              InputField.value := Some "password123";
              InputField.label := Some "Password Toggle";
              InputField.placeholder := None;
              InputField.helperText :=
                Some "Your password must be at least 8 characters.";
              InputField.errorMessage := None;
              InputField.disabled := false; InputField.invalid := false;
              InputField.loading := false; InputField.onClear := false |} in
  InputFieldView.PasswordToggle "Hide password" InputFieldView.EyeOff
    ∈ InputFieldView.trailingButtons p true
  ∧ ("Hide password" = "Hide password"
     ↔ InputField.inputType (InputField.render p true) = "text").
Proof.
  assert (Hin : InputFieldView.PasswordToggle "Hide password" InputFieldView.EyeOff
                ∈ [InputFieldView.PasswordToggle "Hide password" InputFieldView.EyeOff]).
  { by left. }
  split; [exact Hin|].
  eapply InputFieldMoreFacts.password_button_matches_input. exact Hin.
Defined.

(** ** The demonstration page *)

Module AppFacts.
Import DataTable App.

Lemma appRun_snoc evs e s : appRun (evs ++ [e]) s = appStep e (appRun evs s).
Proof. unfold appRun. by rewrite foldl_snoc. Qed.

Lemma appRun_cons e evs s : appRun (e :: evs) s = appRun evs (appStep e s).
Proof. done. Qed.

(** *** The theme *)

Lemma appStep_theme e s :
  theme (appStep e s)
  = if isToggleTheme e
    then (if decide (theme s = "light") then "dark" else "light")
    else theme s.
Proof. destruct e; try done. simpl. unfold timerFired. by destruct (timerPending s). Qed.

Lemma appStep_darkClass e s :
  darkClass (appStep e s)
  = if isToggleTheme e then bool_decide (theme (appStep e s) = "dark")
    else darkClass s.
Proof. destruct e; try done. simpl. unfold timerFired. by destruct (timerPending s). Qed.

(** X16. The theme is "dark" after an odd number of clicks on the theme button and
    "light" after an even number; once the button has been clicked, the
    document carries the class [dark] exactly when the theme is "dark",
    whatever it carried before; and until then the class is untouched. *)
Theorem theme_and_dark_class dark evs :
  let s := appRun evs (initial dark) in
  let clicks := length (filter (λ e, isToggleTheme e = true) evs) in
  theme s = (if Nat.even clicks then "light" else "dark")
  ∧ (0 < clicks → darkClass s = bool_decide (theme s = "dark"))
  ∧ (clicks = 0 → darkClass s = dark)
  ∧ themeButton s
    = (if Nat.even clicks then "Toggle Dark Mode" else "Toggle Light Mode").
Proof.
  simpl. induction evs as [|e evs IH] using rev_ind.
  { simpl. repeat split; try done. lia. }
  destruct IH as (Ht & Hpos & Hzero & _).
  rewrite appRun_snoc, filter_app, length_app.
  assert (Hth : theme (appStep e (appRun evs (initial dark)))
                = if Nat.even (length (filter (λ e, isToggleTheme e = true) evs)
                               + length (filter (λ e, isToggleTheme e = true) [e]))
                  then "light" else "dark").
  { rewrite appStep_theme, Ht. rewrite filter_cons, filter_nil.
    destruct (isToggleTheme e); simpl.
    - rewrite Nat.add_1_r, Nat.even_succ, <- Nat.negb_even.
      by destruct (Nat.even _).
    - by rewrite Nat.add_0_r. }
  split; [done|]. split; [|split].
  - intros Hc. rewrite appStep_darkClass.
    rewrite filter_cons, filter_nil in Hc. destruct (isToggleTheme e) eqn:E; [done|].
    rewrite appStep_theme, E. apply Hpos. simpl in Hc. lia.
  - intros Hc. rewrite appStep_darkClass.
    rewrite filter_cons, filter_nil in Hc.
    destruct (isToggleTheme e) eqn:E; [simpl in Hc; lia|].
    apply Hzero. simpl in Hc. lia.
  - unfold themeButton. rewrite Hth.
    match goal with |- context [Nat.even ?n] => destruct (Nat.even n) end;
      reflexivity.
Qed.

(** *** The selection shown by the page *)

Lemma appStep_selection e s :
  selectedUsers s = selectedRows (table s) →
  selectedUsers (appStep e s) = selectedRows (table (appStep e s)).
Proof.
  intros Hs. destruct e; try done.
  - simpl. unfold timerFired. by destruct (timerPending s).
  - simpl. rewrite Hs. by apply TableRunFacts.step_received.
Qed.

(** X17. The page always holds the selection of the table: whatever happens, the
    users it lists under "Selected Users" are the selected rows of the
    table, in the order of the selection, and the list is shown exactly when
    a row is selected. *)
Theorem page_holds_selection dark evs :
  let s := appRun evs (initial dark) in
  selectedUsers s = selectedRows (table s)
  ∧ selectedBanner s
    = match selectedRows (table s) with
      | [] => None
      | sel => Some (String.concat ", " (name <$> sel))
      end.
Proof.
  simpl.
  assert (Hs : selectedUsers (appRun evs (initial dark))
               = selectedRows (table (appRun evs (initial dark)))).
  { induction evs as [|e evs IH] using rev_ind; [done|].
    rewrite appRun_snoc. by apply appStep_selection. }
  split; [done|]. unfold selectedBanner. rewrite Hs.
  by destruct (selectedRows _).
Qed.

(** *** Loading, rows, empty *)

Lemma appRun_after_timer evs s :
  timerPending s = false → loadingTable s = false →
  timerPending (appRun evs s) = false
  ∧ loadingTable (appRun evs s) = false
  ∧ tableData (appRun evs s)
    = if existsb isSimulateEmpty evs then [] else tableData s.
Proof.
  revert s. induction evs as [|e evs IH]; intros s Ht Hl; [done|].
  rewrite appRun_cons.
  assert (He : timerPending (appStep e s) = false
               ∧ loadingTable (appStep e s) = false
               ∧ tableData (appStep e s)
                 = if isSimulateEmpty e then [] else tableData s).
  { destruct e; try done. simpl. unfold timerFired. by rewrite Ht. }
  destruct He as (Ht' & Hl' & Hd').
  destruct (IH _ Ht' Hl') as (-> & -> & ->). rewrite Hd'. simpl.
  by destruct (isSimulateEmpty e), (existsb isSimulateEmpty evs).
Qed.

Lemma appRun_before_timer evs s :
  timerPending s = true → loadingTable s = true →
  sinceTimer evs = None →
  timerPending (appRun evs s) = true ∧ loadingTable (appRun evs s) = true.
Proof.
  revert s. induction evs as [|e evs IH]; intros s Ht Hl Hn; [done|].
  rewrite appRun_cons. simpl in Hn.
  destruct (isTimerFired e) eqn:E; [done|].
  apply IH; [..|done]; by destruct e.
Qed.

(** X18. The table shows the loading state until the timer fires, whatever else
    happens; from then on it shows the six users until "Simulate Empty
    State" is clicked, and the empty state ever after.  A click on that
    button before the timer fires is undone when it fires. *)
Theorem page_table_body dark evs :
  let s := appRun evs (initial dark) in
  renderBody (tableProps s)
  = match sinceTimer evs with
    | None => LoadingState
    | Some later =>
        if existsb isSimulateEmpty later then EmptyState else TableBody
    end
  ∧ (renderBody (tableProps s) = TableBody → tableData s = userData).
Proof.
  simpl. generalize (initial dark) (eq_refl : timerPending (initial dark) = true)
    (eq_refl : loadingTable (initial dark) = true).
  induction evs as [|e evs IH]; intros s Ht Hl.
  { simpl. unfold renderBody. simpl. by rewrite Hl. }
  rewrite appRun_cons. simpl sinceTimer. destruct (isTimerFired e) eqn:E.
  - destruct e; try done. simpl appStep. unfold timerFired. rewrite Ht.
    match goal with |- context [appRun evs ?s1] =>
      destruct (appRun_after_timer evs s1 eq_refl eq_refl) as (_ & Hl' & Hd')
    end.
    unfold renderBody. simpl. rewrite Hl', Hd'. simpl.
    by destruct (existsb isSimulateEmpty evs).
  - apply IH; by destruct e.
Qed.

(** *** The form *)

Lemma appStep_inputValues e s k :
  inputValues (appStep e s) !! k
  = match e with
    | InputChange field value =>
        if decide (field = k) then Some value else inputValues s !! k
    | ClearName => if decide ("name" = k) then Some "" else inputValues s !! k
    | _ => inputValues s !! k
    end.
Proof.
  destruct e; try done; simpl.
  - apply lookup_insert.
  - apply lookup_insert.
  - unfold timerFired. by destruct (timerPending s).
Qed.

(** X19. The four fields of the form always have a value, so that its inputs stay
    controlled; a change of an input sets the value of the field it names
    and no other; and the clear button of the name field is shown exactly
    when the name is not empty, so that a click on it, which empties the
    name, hides it. *)
Theorem form_fields dark evs :
  let s := appRun evs (initial dark) in
  Forall (λ k, is_Some (inputValues s !! k)) formFields
  ∧ (∀ field value k,
       inputValues (appStep (InputChange field value) s) !! k
       = if decide (field = k) then Some value else inputValues s !! k)
  ∧ (InputField.hasClearButton (nameField s) = true
     ↔ ∃ v, inputValues s !! "name" = Some v ∧ v ≠ "")
  ∧ inputValues (appStep ClearName s) !! "name" = Some ""
  ∧ InputField.hasClearButton (nameField (appStep ClearName s)) = false.
Proof.
  cbv zeta. split; [|split; [|split; [|split]]].
  - induction evs as [|e evs IH] using rev_ind.
    { repeat constructor; by eexists. }
    rewrite appRun_snoc. eapply Forall_impl; [exact IH|].
    intros k Hk. simpl in Hk. rewrite appStep_inputValues.
    destruct e; try done; by case_decide.
  - intros field value k. apply (appStep_inputValues (InputChange field value)).
  - rewrite InputFieldMoreFacts.hasClearButton_spec. simpl.
    split; [by intros [_ ?]|by intros ?; split].
  - by rewrite (appStep_inputValues ClearName).
  - apply not_true_is_false. rewrite InputFieldMoreFacts.hasClearButton_spec.
    simpl. rewrite lookup_insert_eq. by intros [_ (v & [= <-] & Hv)].
Qed.

End AppFacts.

(** ** The properties of the rest, on the sample table *)



(** X4, on an example. A click on "age", select-all, and a second click on "age". *)
Lemma sort_state_reachable_witness :
  let p := Sample.props [Sample.row 1 30; Sample.row 2 10] in
  let evs := [TableView.ClickHeader (Sample.column "age"); TableView.ToggleAll;
              TableView.ClickHeader (Sample.column "age")] in
  Forall (TableView.offered p) evs
  ∧ (DataTable.sortKey (TableView.run Sample.get p evs DataTable.initial).1 = None
     ↔ DataTable.sortOrder (TableView.run Sample.get p evs DataTable.initial).1
       = None).
Proof.
  assert (Hcol : Sample.column "age"
                 ∈ [Sample.column "id"; Sample.column "age"; Sample.column ""]).
  { right. left. }
  assert (Hoff : Forall
            (TableView.offered
               (Sample.props [Sample.row 1 30; Sample.row 2 10]))
            [TableView.ClickHeader (Sample.column "age"); TableView.ToggleAll;
             TableView.ClickHeader (Sample.column "age")]).
  { repeat constructor; exact Hcol. }
  split; [exact Hoff|].
  apply (TableRunFacts.sort_state_reachable Sample.get _ _ Hoff).
Defined.

(** X5, on an example. Two clicks on "age" while the table is sorted by "age", descending. *)
Lemma two_clicks_restore_witness :
  let st := Sample.state (Some "age") (Some DataTable.desc) [Sample.row 1 30] in
  (DataTable.sortable (Sample.column "age") = true
   ∧ DataTable.sortKey st = Some (DataTable.dataIndex (Sample.column "age"))
   ∧ DataTable.sortOrder st = Some DataTable.desc)
  ∧ DataTable.clickHeader (Sample.column "age")
      (DataTable.clickHeader (Sample.column "age") st) = st.
Proof.
  split; [repeat split|].
  apply (TableRunFacts.two_clicks_restore (Sample.column "age") DataTable.desc);
    reflexivity.
Defined.

(** X8, on an example. Select-all and a click on the "age" header, in either order. *)
Lemma sort_and_selection_commute_witness :
  let p := Sample.props [Sample.row 1 30; Sample.row 2 10] in
  let st := @DataTable.initial Sample.Row in
  (∀ c, @TableView.ToggleAll Sample.Row ≠ TableView.ClickHeader c)
  ∧ DataTable.sortedData Sample.get Sample.lt p
      (TableView.step Sample.get p TableView.ToggleAll st).1
    = DataTable.sortedData Sample.get Sample.lt p st.
Proof.
  split; [discriminate|].
  apply (TableRunFacts.sort_and_selection_commute Sample.get Sample.lt
           _ _ (Sample.column "age") TableView.ToggleAll).
  discriminate.
Defined.

(** X10, on an example. One of two rows is checked: the select-all checkbox is indeterminate. *)
Lemma header_checkbox_reflects_rows_witness :
  let p := Sample.props [Sample.row 1 30; Sample.row 2 10] in
  let evs := [TableView.ToggleRow (Sample.row 2 10)] in
  (NoDup ((λ r, Sample.get r (DataTable.rowKey p)) <$> DataTable.data p)
   ∧ Forall (λ r, JS.isNaN (Sample.get r (DataTable.rowKey p)) = false)
       (DataTable.data p)
   ∧ Forall (TableView.offered p) evs)
  ∧ DataTable.selectedRows (TableView.run Sample.get p evs DataTable.initial).1
    ⊆ DataTable.data p.
Proof.
  assert (Hnd : NoDup [1%Z; 2%Z]).
  { apply (bool_decide_unpack _). by vm_compute. }
  assert (Hnan : Forall (λ r, JS.isNaN (Sample.get r "id") = false)
                   [Sample.row 1 30; Sample.row 2 10]).
  { repeat constructor. }
  assert (Hoff : Forall
            (TableView.offered (Sample.props [Sample.row 1 30; Sample.row 2 10]))
            [TableView.ToggleRow (Sample.row 2 10)]).
  { repeat constructor. }
  split; [split; [exact Hnd|split; [exact Hnan|exact Hoff]]|].
  apply (TableRunFacts.header_checkbox_reflects_rows Sample.get
           (Sample.props [Sample.row 1 30; Sample.row 2 10]) _ Hnd Hnan Hoff).
Defined.

(** X12, on an example. Select-all on the sample store. *)
Lemma selection_array_is_new_witness :
  let p' := Sample.props [Sample.row 1 30; Sample.row 2 10; Sample.row 3 20] in
  let st' := Sample.state (Some "age") (Some DataTable.asc) [] in
  (DataTableHeap.propsIn Sample.sampleStore Sample.sampleProps = Some p'
   ∧ DataTableHeap.stateIn Sample.sampleStore Sample.sampleState = Some st')
  ∧ ∃ st1 calls σ',
      DataTableHeap.handleSelectAll Sample.sampleProps Sample.sampleState
        Sample.sampleStore = Some ((st1, calls), σ')
      ∧ DataTableHeap.arrays Sample.sampleStore !! DataTable.selectedRows st1 = None
      ∧ DataTable.selectedRows st1 ≠ DataTable.data Sample.sampleProps
      ∧ DataTable.selectedRows st1 ≠ DataTable.selectedRows Sample.sampleState
      ∧ DataTableHeap.arrays σ' !! DataTable.selectedRows st1
        = Some (DataTable.selectedRows (DataTable.handleSelectAll p' st').1)
      ∧ calls = DataTable.notify Sample.sampleProps (DataTable.selectedRows st1).
Proof.
  split; [split; reflexivity|].
  refine (proj2 (HeapMoreFacts.selection_array_is_new Sample.sampleProps
            Sample.sampleState (Sample.row 1 30) Sample.sampleStore _ _ _ _));
    reflexivity.
Defined.

